(** * pymanoid: rigid-body state and link tasks

    A shallow embedding of [pymanoid/body.py] and [pymanoid/tasks/link.py].

    Numbers.  The Python code computes with numpy floating-point arrays.
    Here every number is an exact rational in canonical form ([Qc]): the
    arithmetic laws the properties below rely on hold exactly, equality is
    Leibniz equality, and every definition still evaluates.  Rounding,
    infinities and NaN are outside this model.

    State.  A [Body] wraps an OpenRAVE [KinBody]; the transform of a body is
    owned by the OpenRAVE environment, read with [GetTransform] and replaced
    with [SetTransform].  The environment is modelled as the map from
    [KinBody] handles to 4x4 transforms, and every mutator is a function from
    environments to environments. *)

From Stdlib Require Import QArith Qcanon Lqa Lia Bool Arith List String.
From Stdlib Require Import NsatzTactic.
From Stdlib Require Import DecimalString DecimalNat.
Import ListNotations.
Local Open Scope string_scope.
Local Open Scope list_scope.
Local Open Scope Qc_scope.

(** ** Numbers *)

Module Num.

(** Decimal literals of the source, such as [.5] or [9.8]. *)
Definition dec (q : Q) : Qc := Q2Qc q.

(** Python's [x < y] on floats. *)
Definition ltb (x y : Qc) : bool := if Qclt_le_dec x y then true else false.

(** Python's [x ** 2]. *)
Definition sq (x : Qc) : Qc := x ^ 2.

End Num.

Notation "x <? y" := (Num.ltb x y) : Qc_scope.

(** ** numpy arrays of fixed shape *)

(** A 3-array, as returned by [T[0:3, 3]]. *)
Record vec3 := V3 { v0 : Qc; v1 : Qc; v2 : Qc }.

(** A 4-array holding a quaternion, scalar part first. *)
Record vec4 := Quat { q0 : Qc; q1 : Qc; q2 : Qc; q3 : Qc }.

(** A 3x3 array, as returned by [T[0:3, 0:3]]. *)
Record mat3 := M3 {
  m00 : Qc; m01 : Qc; m02 : Qc;
  m10 : Qc; m11 : Qc; m12 : Qc;
  m20 : Qc; m21 : Qc; m22 : Qc }.

(** A 4x4 array: the homogeneous transform [T]. *)
Record mat4 := M4 {
  t00 : Qc; t01 : Qc; t02 : Qc; t03 : Qc;
  t10 : Qc; t11 : Qc; t12 : Qc; t13 : Qc;
  t20 : Qc; t21 : Qc; t22 : Qc; t23 : Qc;
  t30 : Qc; t31 : Qc; t32 : Qc; t33 : Qc }.

(** A 7-array in OpenRAVE's pose convention: [pose[0:4]] is the quaternion
    and [pose[4:7]] the translation. *)
Record pose7 := Pose { pose_quat : vec4; pose_trans : vec3 }.

Module Np.

(** *** Element-wise arithmetic on 3-arrays *)

Definition zeros3 : vec3 := V3 0 0 0.

Definition add3 (a b : vec3) : vec3 :=
  V3 (v0 a + v0 b) (v1 a + v1 b) (v2 a + v2 b).

Definition sub3 (a b : vec3) : vec3 :=
  V3 (v0 a - v0 b) (v1 a - v1 b) (v2 a - v2 b).

(** [a * s] for a 3-array [a] and a scalar [s]. *)
Definition scale3 (a : vec3) (s : Qc) : vec3 :=
  V3 (v0 a * s) (v1 a * s) (v2 a * s).

(** *** Arithmetic on 4-arrays *)

(** [q * -1], the effect of [pose[:4] *= -1] on the quaternion block. *)
Definition neg4 (q : vec4) : vec4 :=
  Quat (q0 q * - (1)) (q1 q * - (1)) (q2 q * - (1)) (q3 q * - (1)).

(** *** Arithmetic on 3x3 arrays *)

Definition eye3 : mat3 := M3 1 0 0 0 1 0 0 0 1.

Definition madd (a b : mat3) : mat3 :=
  M3 (m00 a + m00 b) (m01 a + m01 b) (m02 a + m02 b)
     (m10 a + m10 b) (m11 a + m11 b) (m12 a + m12 b)
     (m20 a + m20 b) (m21 a + m21 b) (m22 a + m22 b).

Definition mscale (a : mat3) (s : Qc) : mat3 :=
  M3 (m00 a * s) (m01 a * s) (m02 a * s)
     (m10 a * s) (m11 a * s) (m12 a * s)
     (m20 a * s) (m21 a * s) (m22 a * s).

(** [dot(a, b)] for two 3x3 arrays: the matrix product. *)
Definition mdot (a b : mat3) : mat3 :=
  M3 (m00 a * m00 b + m01 a * m10 b + m02 a * m20 b)
     (m00 a * m01 b + m01 a * m11 b + m02 a * m21 b)
     (m00 a * m02 b + m01 a * m12 b + m02 a * m22 b)
     (m10 a * m00 b + m11 a * m10 b + m12 a * m20 b)
     (m10 a * m01 b + m11 a * m11 b + m12 a * m21 b)
     (m10 a * m02 b + m11 a * m12 b + m12 a * m22 b)
     (m20 a * m00 b + m21 a * m10 b + m22 a * m20 b)
     (m20 a * m01 b + m21 a * m11 b + m22 a * m21 b)
     (m20 a * m02 b + m21 a * m12 b + m22 a * m22 b).

(** [dot(a, v)] for a 3x3 array and a 3-array. *)
Definition mvec (a : mat3) (v : vec3) : vec3 :=
  V3 (m00 a * v0 v + m01 a * v1 v + m02 a * v2 v)
     (m10 a * v0 v + m11 a * v1 v + m12 a * v2 v)
     (m20 a * v0 v + m21 a * v1 v + m22 a * v2 v).

Definition transpose (a : mat3) : mat3 :=
  M3 (m00 a) (m10 a) (m20 a)
     (m01 a) (m11 a) (m21 a)
     (m02 a) (m12 a) (m22 a).

Definition det3 (a : mat3) : Qc :=
  m00 a * (m11 a * m22 a - m12 a * m21 a)
  - m01 a * (m10 a * m22 a - m12 a * m20 a)
  + m02 a * (m10 a * m21 a - m11 a * m20 a).

(** *** Slices of a 4x4 array *)

Definition eye4 : mat4 := M4 1 0 0 0  0 1 0 0  0 0 1 0  0 0 0 1.

(** [T[0:3, 0:3]] *)
Definition block33 (T : mat4) : mat3 :=
  M3 (t00 T) (t01 T) (t02 T)
     (t10 T) (t11 T) (t12 T)
     (t20 T) (t21 T) (t22 T).

(** [T[0:3, 3]] *)
Definition col3 (T : mat4) : vec3 := V3 (t03 T) (t13 T) (t23 T).

(** [T[0:3, 0]], [T[0:3, 1]] and [T[0:3, 2]] *)
Definition col0 (T : mat4) : vec3 := V3 (t00 T) (t10 T) (t20 T).
Definition col1 (T : mat4) : vec3 := V3 (t01 T) (t11 T) (t21 T).
Definition col2 (T : mat4) : vec3 := V3 (t02 T) (t12 T) (t22 T).

(** [T[3, :]], the row no slice assignment of [body.py] touches. *)
Definition row3 (T : mat4) : Qc * Qc * Qc * Qc :=
  (t30 T, t31 T, t32 T, t33 T).

(** [T[:3, 3] = pos] *)
Definition set_col3 (T : mat4) (pos : vec3) : mat4 :=
  M4 (t00 T) (t01 T) (t02 T) (v0 pos)
     (t10 T) (t11 T) (t12 T) (v1 pos)
     (t20 T) (t21 T) (t22 T) (v2 pos)
     (t30 T) (t31 T) (t32 T) (t33 T).

(** [T[:3, :3] = R] *)
Definition set_block33 (T : mat4) (R : mat3) : mat4 :=
  M4 (m00 R) (m01 R) (m02 R) (t03 T)
     (m10 R) (m11 R) (m12 R) (t13 T)
     (m20 R) (m21 R) (m22 R) (t23 T)
     (t30 T) (t31 T) (t32 T) (t33 T).

(** [T[0, 3] = x], [T[1, 3] = y] and [T[2, 3] = z] *)
Definition set_03 (T : mat4) (x : Qc) : mat4 :=
  M4 (t00 T) (t01 T) (t02 T) x
     (t10 T) (t11 T) (t12 T) (t13 T)
     (t20 T) (t21 T) (t22 T) (t23 T)
     (t30 T) (t31 T) (t32 T) (t33 T).

Definition set_13 (T : mat4) (y : Qc) : mat4 :=
  M4 (t00 T) (t01 T) (t02 T) (t03 T)
     (t10 T) (t11 T) (t12 T) y
     (t20 T) (t21 T) (t22 T) (t23 T)
     (t30 T) (t31 T) (t32 T) (t33 T).

Definition set_23 (T : mat4) (z : Qc) : mat4 :=
  M4 (t00 T) (t01 T) (t02 T) (t03 T)
     (t10 T) (t11 T) (t12 T) (t13 T)
     (t20 T) (t21 T) (t22 T) z
     (t30 T) (t31 T) (t32 T) (t33 T).

(** *** One-dimensional arrays of any length

    The [target] of a task may be an array of any length, so the arithmetic
    of [tasks/link.py] is modelled on lists, with numpy's broadcasting rule
    for one-dimensional operands: equal lengths combine element-wise, a
    length-one operand is stretched, and any other pair of lengths raises
    [ValueError]. *)

Definition ndarray := list Qc.

Definition of_vec3 (v : vec3) : ndarray := [v0 v; v1 v; v2 v].

Definition of_quat (q : vec4) : ndarray := [q0 q; q1 q; q2 q; q3 q].

Definition of_pose (p : pose7) : ndarray :=
  of_quat (pose_quat p) ++ of_vec3 (pose_trans p).

Fixpoint zip_with (f : Qc -> Qc -> Qc) (a b : ndarray) : ndarray :=
  match a, b with
  | x :: a', y :: b' => f x y :: zip_with f a' b'
  | _, _ => []
  end.

Definition broadcast (f : Qc -> Qc -> Qc) (a b : ndarray) : option ndarray :=
  if Nat.eqb (length a) (length b) then Some (zip_with f a b)
  else match a, b with
       | x :: nil, _ => Some (map (f x) b)
       | _, y :: nil => Some (map (fun x => f x y) a)
       | _, _ => None
       end.

(** [dot(a, b)] of two one-dimensional arrays; the lengths must agree. *)
Definition dot (a b : ndarray) : option Qc :=
  if Nat.eqb (length a) (length b)
  then Some (fold_right Qcplus 0 (zip_with Qcmult a b))
  else None.

End Np.

(** ** Exceptions *)

Inductive exn :=
| Exception (msg : string)
| ValueError (msg : string).

Inductive result (A : Type) :=
| Ok (a : A)
| Raise (e : exn).

Arguments Ok {A} a.
Arguments Raise {A} e.

Definition bind {A B : Type} (r : result A) (k : A -> result B) : result B :=
  match r with
  | Ok a => k a
  | Raise e => Raise e
  end.

Notation "x <- r ;; k" := (bind r (fun x => k))
  (at level 61, r at next level, right associativity).

Definition is_ok {A : Type} (r : result A) : bool :=
  match r with Ok _ => true | Raise _ => false end.

Definition shape_error : exn :=
  ValueError "operands could not be broadcast together".

Definition np_sub (a b : Np.ndarray) : result Np.ndarray :=
  match Np.broadcast Qcminus a b with
  | Some c => Ok c
  | None => Raise shape_error
  end.

Definition np_mul (a b : Np.ndarray) : result Np.ndarray :=
  match Np.broadcast Qcmult a b with
  | Some c => Ok c
  | None => Raise shape_error
  end.

Definition np_dot (a b : Np.ndarray) : result Qc :=
  match Np.dot a b with
  | Some c => Ok c
  | None => Raise (ValueError "shapes not aligned")
  end.

(** ** The OpenRAVE environment and the collaborators outside the sources *)

(** An OpenRAVE [KinBody], identified by its handle. *)
Definition KinBody := nat.

(** Modelled from the spec: the engine that stores the transforms, which is
    not part of the sources.  Each body owns exactly one transform;
    [GetTransform] reads it and [SetTransform] replaces it wholesale, with
    the matrix it is given. *)
Definition Env := KinBody -> mat4.

(** [kinbody.GetTransform()] *)
Definition GetTransform (env : Env) (k : KinBody) : mat4 := env k.

(** [kinbody.SetTransform(T)] *)
Definition SetTransform (k : KinBody) (T : mat4) (env : Env) : Env :=
  fun k' => if Nat.eqb k' k then T else env k'.

(** The functions [body.py] and [tasks/link.py] call but do not define:
    the rotation conversions of [openravepy], the helpers imported from
    [rotations.py], and the Jacobians of the robot.  They are parameters of
    the development. *)
Class External := {
  (** quaternion of a rotation block, as used by [GetTransformPose] *)
  quatFromRotationMatrix : mat3 -> vec4;
  (** rotation block of a quaternion, as used by [matrixFromPose] *)
  rotationMatrixFromQuat : vec4 -> mat3;
  (** [rotations.crossmat] *)
  crossmat : vec3 -> mat3;
  (** [rotations.rotation_matrix_from_rpy] *)
  rotation_matrix_from_rpy : Qc -> Qc -> Qc -> mat3;
  (** [rotations.rpy_from_quat] *)
  rpy_from_quat : vec4 -> vec3;
  (** [robot.compute_link_pos_jacobian] *)
  compute_link_pos_jacobian : Env -> KinBody -> list Np.ndarray;
  (** [robot.compute_link_pose_jacobian] *)
  compute_link_pose_jacobian : Env -> KinBody -> list Np.ndarray
}.

Section Openrave.

Context {ext : External}.

(** Modelled from the spec: [KinBody.GetTransformPose] of openravepy, which
    is not part of the sources.  The pose of a transform is the quaternion of
    its orientation block followed by its translation. *)
Definition GetTransformPose (env : Env) (k : KinBody) : pose7 :=
  let T := GetTransform env k in
  Pose (quatFromRotationMatrix (Np.block33 T)) (Np.col3 T).

(** Modelled from the spec: [openravepy.matrixFromPose], which is not part of
    the sources.  The inverse conversion: the rotation block of the
    quaternion, the translation column, and the row [0 0 0 1]. *)
Definition matrixFromPose (pose : pose7) : mat4 :=
  let R := rotationMatrixFromQuat (pose_quat pose) in
  let t := pose_trans pose in
  M4 (m00 R) (m01 R) (m02 R) (v0 t)
     (m10 R) (m11 R) (m12 R) (v1 t)
     (m20 R) (m21 R) (m22 R) (v2 t)
     0 0 0 1.

End Openrave.

(** ** body.py *)

(** [class Body]: a wrapper around an OpenRAVE [KinBody]. *)
Record Body := { rave : KinBody }.

Module Body.

Section Methods.

Context {ext : External}.

(** Transformation matrix. *)
Definition T (env : Env) (self : Body) : mat4 :=
  GetTransform env (rave self).

(** Pose (in OpenRAVE convention).  Convention: the scalar part of the
    quaternion is not negative, which enforces the shortest Slerp path. *)
Definition pose (env : Env) (self : Body) : pose7 :=
  let pose := GetTransformPose env (rave self) in
  if q0 (pose_quat pose) <? 0
  then Pose (Np.neg4 (pose_quat pose)) (pose_trans pose)
  else pose.

(** Rotation matrix *)
Definition R (env : Env) (self : Body) : mat3 := Np.block33 (T env self).

(** Position in world frame *)
Definition p (env : Env) (self : Body) : vec3 := Np.col3 (T env self).

Definition x (env : Env) (self : Body) : Qc := v0 (p env self).

Definition y (env : Env) (self : Body) : Qc := v1 (p env self).

Definition z (env : Env) (self : Body) : Qc := v2 (p env self).

(** Tangent vector *)
Definition t (env : Env) (self : Body) : vec3 := Np.col0 (T env self).

(** Binormal vector *)
Definition b (env : Env) (self : Body) : vec3 := Np.col1 (T env self).

(** Normal vector *)
Definition n (env : Env) (self : Body) : vec3 := Np.col2 (T env self).

Definition quat (env : Env) (self : Body) : vec4 := pose_quat (pose env self).

(** Roll-pitch-yaw angles *)
Definition rpy (env : Env) (self : Body) : vec3 :=
  rpy_from_quat (quat env self).

Definition roll (env : Env) (self : Body) : Qc := v0 (rpy env self).

Definition pitch (env : Env) (self : Body) : Qc := v1 (rpy env self).

Definition yaw (env : Env) (self : Body) : Qc := v2 (rpy env self).

Definition set_transform (self : Body) (T : mat4) (env : Env) : Env :=
  SetTransform (rave self) T env.

Definition set_pos (self : Body) (pos : vec3) (env : Env) : Env :=
  let T := T env self in
  let T := Np.set_col3 T pos in
  set_transform self T env.

Definition set_rotation_matrix (self : Body) (R : mat3) (env : Env) : Env :=
  let T := T env self in
  let T := Np.set_block33 T R in
  set_transform self T env.

Definition set_x (self : Body) (x : Qc) (env : Env) : Env :=
  let T := T env self in
  let T := Np.set_03 T x in
  set_transform self T env.

Definition set_y (self : Body) (y : Qc) (env : Env) : Env :=
  let T := T env self in
  let T := Np.set_13 T y in
  set_transform self T env.

Definition set_z (self : Body) (z : Qc) (env : Env) : Env :=
  let T := T env self in
  let T := Np.set_23 T z in
  set_transform self T env.

Definition set_rpy (self : Body) (rpy : vec3) (env : Env) : Env :=
  let T := T env self in
  let T := Np.set_block33 T
             (rotation_matrix_from_rpy (v0 rpy) (v1 rpy) (v2 rpy)) in
  set_transform self T env.

Definition set_roll (self : Body) (roll : Qc) (env : Env) : Env :=
  set_rpy self (V3 roll (pitch env self) (yaw env self)) env.

Definition set_pitch (self : Body) (pitch : Qc) (env : Env) : Env :=
  set_rpy self (V3 (roll env self) pitch (yaw env self)) env.

Definition set_yaw (self : Body) (yaw : Qc) (env : Env) : Env :=
  set_rpy self (V3 (roll env self) (pitch env self) yaw) env.

Definition set_pose (self : Body) (pose : pose7) (env : Env) : Env :=
  let T := matrixFromPose pose in
  set_transform self T env.

Definition set_quat (self : Body) (quat : vec4) (env : Env) : Env :=
  let pose := pose env self in
  let pose := Pose quat (pose_trans pose) in
  set_pose self pose env.

(** Apply a twist [v, omega] defined in the local coordinate frame, for the
    duration [dt].  The second statement reads [self.R] in the environment
    the first one produced. *)
Definition apply_twist (self : Body) (v omega : vec3) (dt : Qc) (env : Env)
  : Env :=
  let env := set_pos self (Np.add3 (p env self) (Np.scale3 v dt)) env in
  set_rotation_matrix self
    (Np.madd (R env self)
             (Np.mscale (Np.mdot (crossmat omega) (R env self)) dt))
    env.

End Methods.

End Body.

(** [class Point(Cube)]: a body with a velocity, the private attribute
    [__pd]. *)
Record Point := { body : Body; __pd : vec3 }.

Module Point.

Section Methods.

Context {ext : External}.

(** [Point.__init__], after the [Cube] is created: the position is [pos]
    (the origin when [pos] is [None]) and the velocity is [zeros(3)]. *)
Definition init (self : Body) (pos : option vec3) (env : Env) : Env * Point :=
  let pos := match pos with
             | None => V3 0 0 0
             | Some pos => pos
             end in
  (Body.set_pos self pos env, {| body := self; __pd := Np.zeros3 |}).

Definition pd (self : Point) : vec3 := __pd self.

(** Update the point-mass velocity. *)
Definition set_velocity (self : Point) (pd : vec3) : Point :=
  {| body := body self; __pd := pd |}.

(** Euler integration of constant acceleration [pdd] over duration [dt]. *)
Definition integrate_acceleration (self : Point) (pdd : vec3) (dt : Qc)
  (env : Env) : Env * Point :=
  let env :=
    Body.set_pos (body self)
      (Np.add3 (Np.add3 (Body.p env (body self)) (Np.scale3 (pd self) dt))
               (Np.scale3 (Np.scale3 pdd (Num.dec 0.5)) (Num.sq dt)))
      env in
  let self := set_velocity self (Np.add3 (pd self) (Np.scale3 pdd dt)) in
  (env, self).

End Methods.

End Point.

(** ** tasks/link.py *)

(** The values a caller may pass as [target]. *)
Inductive pyobj :=
| PyList (items : list Qc)      (* a list of floats *)
| PyArray (a : Np.ndarray)      (* a one-dimensional numpy.ndarray *)
| PyTuple (items : list Qc)     (* a tuple of floats *)
| PyBody (b : Body)             (* a pymanoid.Body *)
| PyNone.

(** [type(target)], as [%s] prints it. *)
Definition type_repr (o : pyobj) : string :=
  match o with
  | PyList _ => "<type 'list'>"
  | PyArray _ => "<type 'numpy.ndarray'>"
  | PyTuple _ => "<type 'tuple'>"
  | PyBody _ => "<class 'pymanoid.body.Body'>"
  | PyNone => "<type 'NoneType'>"
  end.

(** [hasattr(target, name)] for the two attributes the tasks probe: of the
    values above only a [Body] has the properties [p] and [pose]. *)
Definition hasattr (o : pyobj) (name : string) : bool :=
  match o with
  | PyBody _ => String.eqb name "p" || String.eqb name "pose"
  | _ => false
  end.

(** [type(target) is list] *)
Definition type_is_list (o : pyobj) : bool :=
  match o with PyList _ => true | _ => false end.

(** [type(target) is ndarray] *)
Definition type_is_ndarray (o : pyobj) : bool :=
  match o with PyArray _ => true | _ => false end.

(** [AttributeError], raised when an absent attribute is read. *)
Definition attribute_error (name : string) : exn :=
  Exception ("object has no attribute '" ++ name ++ "'").

(** [array(target)] for a list. *)
Definition array (o : pyobj) : pyobj :=
  match o with
  | PyList items => PyArray items
  | _ => o
  end.

(** The array a value of type [ndarray] holds. *)
Definition as_ndarray (o : pyobj) : result Np.ndarray :=
  match o with
  | PyArray a => Ok a
  | _ => Raise (Exception "not an ndarray")
  end.

Section Attributes.

Context {ext : External}.

(** [target.p], read in the current state. *)
Definition attr_p (env : Env) (o : pyobj) : result Np.ndarray :=
  match o with
  | PyBody tb => Ok (Np.of_vec3 (Body.p env tb))
  | _ => Raise (attribute_error "p")
  end.

(** [target.pose], read in the current state. *)
Definition attr_pose (env : Env) (o : pyobj) : result Np.ndarray :=
  match o with
  | PyBody tb => Ok (Np.of_pose (Body.pose env tb))
  | _ => Raise (attribute_error "pose")
  end.

End Attributes.

(** Modelled from the spec: the generic [Task] of [generic.py], which is not
    part of the sources.  Construction binds the Jacobian and residual
    providers and the parameters; both providers are evaluated on the
    state of the current control cycle. *)
Record Task := {
  task_type : string;
  link : Body;
  jacobian : Env -> list Np.ndarray;
  pos_residual : Env -> result Np.ndarray;
  gain : option Qc;
  weight : option Qc;
  exclude_dofs : option (list nat) }.

Definition _oppose_quat : Np.ndarray :=
  [- (1); - (1); - (1); - (1); 1; 1; 1].

Module LinkPosTask.

Section Methods.

Context {ext : External}.

(** Create a new position task for a given link. *)
Definition init (link : Body) (target : pyobj)
  (gain weight : option Qc) (exclude_dofs : option (list nat)) : result Task :=
  let target := if type_is_list target then array target else target in
  pos_residual <-
    (if hasattr target "p" then
       Ok (fun env => target_p <- attr_p env target ;;
                      np_sub target_p (Np.of_vec3 (Body.p env link)))
     else if type_is_ndarray target then
       Ok (fun env => target_a <- as_ndarray target ;;
                      np_sub target_a (Np.of_vec3 (Body.p env link)))
     else
       Raise (Exception
                ("Target " ++ type_repr target ++ " has no 'p' attribute"))) ;;
  let jacobian := fun env => compute_link_pos_jacobian env (rave link) in
  Ok {| task_type := "link_pos";
        link := link;
        jacobian := jacobian;
        pos_residual := pos_residual;
        gain := gain;
        weight := weight;
        exclude_dofs := exclude_dofs |}.

End Methods.

End LinkPosTask.

Module LinkPoseTask.

Section Methods.

Context {ext : External}.

(** The body shared by the two [pos_residual] closures of [__init__]:
    [target_pose] is [target.pose] or [target], [link_pose] is [link.pose]. *)
Definition residual_of (target_pose link_pose : Np.ndarray)
  : result Np.ndarray :=
  residual <- np_sub target_pose link_pose ;;
  d <- np_dot (firstn 4 residual) (firstn 4 residual) ;;
  if 1 <? d
  then (opposed <- np_mul _oppose_quat target_pose ;;
        np_sub opposed link_pose)
  else Ok residual.

(** Create a new pose task for a given link. *)
Definition init (link : Body) (target : pyobj)
  (gain weight : option Qc) (exclude_dofs : option (list nat)) : result Task :=
  let target := if type_is_list target then array target else target in
  pos_residual <-
    (if hasattr target "pose" then
       Ok (fun env => target_pose <- attr_pose env target ;;
                      residual_of target_pose (Np.of_pose (Body.pose env link)))
     else if type_is_ndarray target then
       Ok (fun env => target_a <- as_ndarray target ;;
                      residual_of target_a (Np.of_pose (Body.pose env link)))
     else
       Raise (Exception
                ("Target " ++ type_repr target ++ " has no 'pose' attribute"))) ;;
  let jacobian := fun env => compute_link_pose_jacobian env (rave link) in
  Ok {| task_type := "link_pose";
        link := link;
        jacobian := jacobian;
        pos_residual := pos_residual;
        gain := gain;
        weight := weight;
        exclude_dofs := exclude_dofs |}.

End Methods.

End LinkPoseTask.

(** ** Predicates of the specification *)

(** A proper rotation: orthonormal columns and determinant one. *)
Definition is_rotation (M : mat3) : Prop :=
  Np.mdot (Np.transpose M) M = Np.eye3 /\ Np.det3 M = 1.

(** A valid rigid transform: the orientation block is a proper rotation and
    the last row is [0 0 0 1]. *)
Definition is_rigid (T : mat4) : Prop :=
  is_rotation (Np.block33 T) /\ Np.row3 T = (0, 0, 0, 1).

(** Roll, pitch and yaw of at most one radian in absolute value: a range on
    which roll-pitch-yaw angles determine the rotation and are determined by
    it. *)
Definition small_rpy (roll pitch yaw : Qc) : Prop :=
  (- (1) <= roll /\ roll <= 1) /\
  (- (1) <= pitch /\ pitch <= 1) /\
  (- (1) <= yaw /\ yaw <= 1).

(** The angles [Body.rpy] reads from a transform whose rotation block is
    [M]: those of the quaternion of [M], taken with a scalar part that is not
    negative. *)
Definition rpy_of_rotation {ext : External} (M : mat3) : vec3 :=
  let q := quatFromRotationMatrix M in
  rpy_from_quat (if q0 q <? 0 then Np.neg4 q else q).

(** The squared norm of the orientation block of [a - b], for two poses. *)
Definition quat_dist2 (a b : vec4) : Qc :=
  (q0 a - q0 b) * (q0 a - q0 b) + ((q1 a - q1 b) * (q1 a - q1 b)
  + ((q2 a - q2 b) * (q2 a - q2 b) + ((q3 a - q3 b) * (q3 a - q3 b) + 0))).

(** The dot product of two quaternions, and unit quaternions. *)
Definition quat_dot (a b : vec4) : Qc :=
  q0 a * q0 b + q1 a * q1 b + q2 a * q2 b + q3 a * q3 b.

Definition unit_quat (a : vec4) : Prop := quat_dot a a = 1.

(** The pose with the opposite quaternion and the same translation: the
    same rotation, by the double cover. *)
Definition negated_quaternion (P : pose7) : pose7 :=
  Pose (Quat (- q0 (pose_quat P)) (- q1 (pose_quat P))
             (- q2 (pose_quat P)) (- q3 (pose_quat P)))
       (pose_trans P).

(** [P - L], component by component. *)
Definition pose_difference (P L : pose7) : Np.ndarray :=
  [ q0 (pose_quat P) - q0 (pose_quat L); q1 (pose_quat P) - q1 (pose_quat L);
    q2 (pose_quat P) - q2 (pose_quat L); q3 (pose_quat P) - q3 (pose_quat L);
    v0 (pose_trans P) - v0 (pose_trans L); v1 (pose_trans P) - v1 (pose_trans L);
    v2 (pose_trans P) - v2 (pose_trans L) ].

(** Whether the double-cover test of [LinkPoseTask] fires for the target
    pose [P] and the link pose [L]. *)
Definition opposite_side (P L : pose7) : bool :=
  1 <? quat_dist2 (pose_quat P) (pose_quat L).

(** "The target's position", for a target that has one: the position of a
    body, or a list or an array of three coordinates. *)
Definition target_position {ext : External} (env : Env) (target : pyobj)
  : option vec3 :=
  match target with
  | PyBody tb => Some (Body.p env tb)
  | PyArray (a :: b :: c :: nil) | PyList (a :: b :: c :: nil) =>
      Some (V3 a b c)
  | _ => None
  end.

(** The targets whose construction succeeds: a body, an array or a list. *)
Definition accepted_target (target : pyobj) : bool :=
  match target with
  | PyBody _ | PyArray _ | PyList _ => true
  | PyTuple _ | PyNone => false
  end.

(** The targets the specification describes as valid for a task of
    dimension [dim] probing the attribute [attr]: one that provides the
    attribute, or a raw numeric vector of [dim] components. *)
Definition specified_target (dim : nat) (attr : string) (target : pyobj)
  : bool :=
  hasattr target attr
  || match target with
     | PyArray a | PyList a => Nat.eqb (length a) dim
     | _ => false
     end.

(** The length of a list or an array target. *)
Definition target_length (target : pyobj) : option nat :=
  match target with
  | PyArray a | PyList a => Some (length a)
  | _ => None
  end.

(** What the position would be were the linear velocity rotated into the
    world frame first. *)
Definition rotated_twist_position {ext : External} (env : Env) (self : Body)
  (v : vec3) (dt : Qc) : vec3 :=
  Np.add3 (Body.p env self) (Np.scale3 (Np.mvec (Body.R env self) v) dt).

(** Constant-acceleration kinematics, as the specification writes it:
    [p + v dt + 0.5 a dt^2] and [v + a dt]. *)
Definition kinematic_position (p v a : vec3) (dt : Qc) : vec3 :=
  V3 (v0 p + v0 v * dt + Num.dec 0.5 * v0 a * (dt * dt))
     (v1 p + v1 v * dt + Num.dec 0.5 * v1 a * (dt * dt))
     (v2 p + v2 v * dt + Num.dec 0.5 * v2 a * (dt * dt)).

Definition kinematic_velocity (v a : vec3) (dt : Qc) : vec3 :=
  V3 (v0 v + v0 a * dt) (v1 v + v1 a * dt) (v2 v + v2 a * dt).

(** ** A reference implementation of the collaborators

    Concrete conversions over the rationals, on which the definitions above
    can be run.  The quaternion conversions are the usual ones; the
    quaternion of a rotation is normalised when its norm is rational and is
    left with the norm it has otherwise, which the conversion back, dividing
    by the squared norm, does not depend on.  The roll-pitch-yaw
    conversions are the first-order ones, the exact conversions being
    trigonometric. *)

Module Reference.

Definition two : Qc := 1 + 1.

Definition skew (w : vec3) : mat3 :=
  M3 0 (- v2 w) (v1 w)
     (v2 w) 0 (- v0 w)
     (- v1 w) (v0 w) 0.

Definition norm2 (q : vec4) : Qc :=
  q0 q * q0 q + q1 q * q1 q + q2 q * q2 q + q3 q * q3 q.

Definition scale4 (s : Qc) (q : vec4) : vec4 :=
  Quat (s * q0 q) (s * q1 q) (s * q2 q) (s * q3 q).

Definition rotation_of_quat (q : vec4) : mat3 :=
  let i := two / norm2 q in
  M3 (1 - i * (q2 q * q2 q + q3 q * q3 q))
     (i * (q1 q * q2 q - q0 q * q3 q))
     (i * (q1 q * q3 q + q0 q * q2 q))
     (i * (q1 q * q2 q + q0 q * q3 q))
     (1 - i * (q1 q * q1 q + q3 q * q3 q))
     (i * (q2 q * q3 q - q0 q * q1 q))
     (i * (q1 q * q3 q - q0 q * q2 q))
     (i * (q2 q * q3 q + q0 q * q1 q))
     (1 - i * (q1 q * q1 q + q2 q * q2 q)).

Definition leb (x y : Qc) : bool := negb (y <? x).

(** A quaternion of the rotation [M], of any norm: the component that is
    largest in absolute value is computed from the diagonal, the other three
    from the off-diagonal entries. *)
Definition quat_direction (M : mat3) : vec4 :=
  let tr := m00 M + m11 M + m22 M in
  if leb 0 tr then
    Quat (1 + tr) (m21 M - m12 M) (m02 M - m20 M) (m10 M - m01 M)
  else if leb (m11 M) (m00 M) && leb (m22 M) (m00 M) then
    Quat (m21 M - m12 M) (1 + m00 M - m11 M - m22 M)
         (m01 M + m10 M) (m02 M + m20 M)
  else if leb (m22 M) (m11 M) then
    Quat (m02 M - m20 M) (m01 M + m10 M)
         (1 - m00 M + m11 M - m22 M) (m12 M + m21 M)
  else
    Quat (m10 M - m01 M) (m02 M + m20 M)
         (m12 M + m21 M) (1 - m00 M - m11 M + m22 M).

(** The square root of a rational that is the square of a rational. *)
Definition sqrt_exact (x : Qc) : option Qc :=
  let n := Qnum (this x) in
  let d := Qden (this x) in
  if ((Z.sqrt n * Z.sqrt n =? n)%Z && (Pos.sqrt d * Pos.sqrt d =? d)%positive)%bool
  then Some (Q2Qc (Z.sqrt n # Pos.sqrt d))
  else None.

Definition normalised (q : vec4) : vec4 :=
  match sqrt_exact (norm2 q) with
  | Some r => if Qeq_bool (this r) 0 then q else scale4 (/ r) q
  | None => q
  end.

Definition quat_of_rotation (M : mat3) : vec4 :=
  normalised (quat_direction M).

Definition rotation_of_rpy (roll pitch yaw : Qc) : mat3 :=
  Np.madd Np.eye3 (skew (V3 roll pitch yaw)).

Definition rpy_of_quat (q : vec4) : vec3 :=
  V3 (two * q1 q / q0 q) (two * q2 q / q0 q) (two * q3 q / q0 q).

#[export] Instance external : External :=
  Build_External quat_of_rotation rotation_of_quat skew
    rotation_of_rpy rpy_of_quat (fun _ _ => []) (fun _ _ => []).

(** Sample states: every body at the identity transform, and two bodies. *)
Definition env0 : Env := fun _ => Np.eye4.

Definition link0 : Body := {| rave := 0%nat |}.

Definition body1 : Body := {| rave := 1%nat |}.

(** A half turn about the first axis. *)
Definition turn_x : mat4 :=
  M4 1 0 0 0
     0 (- (1)) 0 0
     0 0 (- (1)) 0
     0 0 0 1.

(** The rotation about the second axis of the unit quaternion
    [(-5/13, 0, 12/13, 0)], at the translation [(1, 2, 3)]. *)
Definition turn_y : mat4 :=
  M4 (- Q2Qc (119 # 169)) 0 (- Q2Qc (120 # 169)) 1
     0 1 0 two
     (Q2Qc (120 # 169)) 0 (- Q2Qc (119 # 169)) (two + 1)
     0 0 0 1.

End Reference.

(** ** Vectors, and environments up to the transforms they hold *)

Module Vec.

Definition dot3 (a b : vec3) : Qc :=
  v0 a * v0 b + v1 a * v1 b + v2 a * v2 b.

Definition cross3 (a b : vec3) : vec3 :=
  V3 (v1 a * v2 b - v2 a * v1 b)
     (v2 a * v0 b - v0 a * v2 b)
     (v0 a * v1 b - v1 a * v0 b).

End Vec.

(** Two environments that hold the same transform for every body. *)
Definition same_env (env env' : Env) : Prop := forall k, env k = env' k.

(** The mechanical energy per unit of mass of a point in the uniform field
    of acceleration [a]: kinetic energy minus the work of the field. *)
Definition specific_energy {ext : External} (a : vec3) (env : Env)
  (self : Point) : Qc :=
  Num.dec 0.5 * Vec.dot3 (Point.pd self) (Point.pd self)
  - Vec.dot3 a (Body.p env (body self)).

(** ** body.py: names, colours, visibility and construction *)

(** The colours and the transparency of one geometry of a link. *)
Record Geometry := {
  ambient_color : vec3;
  diffuse_color : vec3;
  transparency : Qc }.

(** One box of [InitFromBoxes]: its position followed by its extents. *)
Record aabb := { aabb_pos : vec3; aabb_extents : vec3 }.

(** Modelled from the spec: the state of the engine and of the class, which
    the sources reach through [openravepy] only.  The engine holds, for each
    [KinBody], its transform, its name, its visibility, the geometries of its
    links and the boxes it was initialised from, and knows which bodies were
    added to the environment; each setter replaces what it names and nothing
    else.  [body_count] is the class attribute [Body.count]. *)
Record World := {
  transforms : Env;
  names : KinBody -> string;
  visibility : KinBody -> bool;
  geometries : KinBody -> list (list Geometry);
  boxes : KinBody -> list aabb;
  added : KinBody -> bool;
  body_count : nat }.

Module Engine.

Definition update {A : Type} (f : KinBody -> A) (k : KinBody) (a : A)
  : KinBody -> A :=
  fun k' => if Nat.eqb k' k then a else f k'.

Definition with_transforms (w : World) (env : Env) : World :=
  {| transforms := env; names := names w; visibility := visibility w;
     geometries := geometries w; boxes := boxes w; added := added w;
     body_count := body_count w |}.

(** [kinbody.GetName()] and [kinbody.SetName(name)] *)
Definition GetName (w : World) (k : KinBody) : string := names w k.

Definition SetName (k : KinBody) (name : string) (w : World) : World :=
  {| transforms := transforms w; names := update (names w) k name;
     visibility := visibility w; geometries := geometries w;
     boxes := boxes w; added := added w; body_count := body_count w |}.

(** [kinbody.SetVisible(visible)] *)
Definition SetVisible (k : KinBody) (visible : bool) (w : World) : World :=
  {| transforms := transforms w; names := names w;
     visibility := update (visibility w) k visible;
     geometries := geometries w; boxes := boxes w; added := added w;
     body_count := body_count w |}.

(** The loop [for link in GetLinks(): for g in link.GetGeometries(): ...],
    with the setters of the loop body applied to each geometry. *)
Definition for_each_geometry (k : KinBody) (f : Geometry -> Geometry)
  (w : World) : World :=
  {| transforms := transforms w; names := names w;
     visibility := visibility w;
     geometries := update (geometries w) k (map (map f) (geometries w k));
     boxes := boxes w; added := added w; body_count := body_count w |}.

(** [g.SetAmbientColor(c)], [g.SetDiffuseColor(c)], [g.SetTransparency(t)] *)
Definition SetAmbientColor (c : vec3) (g : Geometry) : Geometry :=
  {| ambient_color := c; diffuse_color := diffuse_color g;
     transparency := transparency g |}.

Definition SetDiffuseColor (c : vec3) (g : Geometry) : Geometry :=
  {| ambient_color := ambient_color g; diffuse_color := c;
     transparency := transparency g |}.

Definition SetTransparency (t : Qc) (g : Geometry) : Geometry :=
  {| ambient_color := ambient_color g; diffuse_color := diffuse_color g;
     transparency := t |}.

(** [box.InitFromBoxes(array([array(aabb)]), True)]: the body gets one link
    with one geometry for each box, with the attributes [fresh] the engine
    gives a new geometry. *)
Definition InitFromBoxes (k : KinBody) (bs : list aabb) (fresh : Geometry)
  (w : World) : World :=
  {| transforms := transforms w; names := names w;
     visibility := visibility w;
     geometries := update (geometries w) k [map (fun _ => fresh) bs];
     boxes := update (boxes w) k bs; added := added w;
     body_count := body_count w |}.

(** [env.Add(box, True)] *)
Definition Add (k : KinBody) (w : World) : World :=
  {| transforms := transforms w; names := names w;
     visibility := visibility w; geometries := geometries w;
     boxes := boxes w; added := update (added w) k true;
     body_count := body_count w |}.

Definition with_count (w : World) (n : nat) : World :=
  {| transforms := transforms w; names := names w;
     visibility := visibility w; geometries := geometries w;
     boxes := boxes w; added := added w; body_count := n |}.

End Engine.

(** A Python object of class [Body] or of a subclass: the wrapped body and
    the attribute [is_visible]. *)
Record Instance := { wrapped : Body; is_visible : bool }.

Module BodyObject.

Section Methods.

Context {ext : External}.

(** [x in l] and [l.index(x)] for a list of strings. *)
Fixpoint mem (x : string) (l : list string) : bool :=
  match l with
  | [] => false
  | y :: l' => String.eqb x y || mem x l'
  end.

Fixpoint index (l : list string) (x : string) : nat :=
  match l with
  | [] => 0%nat
  | y :: l' => if String.eqb y x then 0%nat else S (index l' x)
  end.

(** [a[i] += x] for a 3-array. *)
Definition add_at (a : vec3) (i : nat) (x : Qc) : vec3 :=
  match i with
  | 0%nat => V3 (v0 a + x) (v1 a) (v2 a)
  | 1%nat => V3 (v0 a) (v1 a + x) (v2 a)
  | 2%nat => V3 (v0 a) (v1 a) (v2 a + x)
  | _ => a
  end.

(** The ambient and the diffuse colour [set_color] computes for a colour
    code in Matplotlib convention. *)
Definition color_arrays (color : string) : vec3 * vec3 :=
  if String.eqb color "w" then
    (V3 1 1 1, V3 1 1 1)
  else
    let acolor := V3 (Num.dec 0.2) (Num.dec 0.2) (Num.dec 0.2) in
    let dcolor := V3 (Num.dec 0.2) (Num.dec 0.2) (Num.dec 0.2) in
    let rgb := ["r"; "g"; "b"] in
    let cmy := ["c"; "m"; "y"] in
    if mem color rgb then
      let cdim := index rgb color in
      (add_at acolor cdim (Num.dec 0.2), add_at dcolor cdim (Num.dec 0.4))
    else if mem color cmy then
      let cdim := index cmy color in
      (add_at (add_at acolor ((cdim + 1) mod 3) (Num.dec 0.2))
              ((cdim + 2) mod 3) (Num.dec 0.2),
       add_at (add_at dcolor ((cdim + 1) mod 3) (Num.dec 0.4))
              ((cdim + 2) mod 3) (Num.dec 0.4))
    else
      (acolor, dcolor).

(** Set the color of all bodies in the OpenRAVE KinBody object. *)
Definition set_color (self : Body) (color : string) (w : World) : World :=
  let (acolor, dcolor) := color_arrays color in
  Engine.for_each_geometry (rave self)
    (fun g => Engine.SetDiffuseColor dcolor (Engine.SetAmbientColor acolor g))
    w.

Definition set_transparency (self : Body) (t : Qc) (w : World) : World :=
  Engine.for_each_geometry (rave self) (Engine.SetTransparency t) w.

Definition show (self : Instance) (w : World) : World :=
  Engine.SetVisible (rave (wrapped self)) true w.

Definition hide (self : Instance) (w : World) : World :=
  Engine.SetVisible (rave (wrapped self)) false w.

Definition set_visible (self : Instance) (visible : bool) (w : World)
  : World * Instance :=
  let self := {| wrapped := wrapped self; is_visible := visible |} in
  (Engine.SetVisible (rave (wrapped self)) visible w, self).

(** Get name from OpenRAVE object. *)
Definition name (w : World) (self : Body) : string :=
  Engine.GetName w (rave self).

(** [str(n)], as [%s] prints an integer. *)
Definition str (n : nat) : string :=
  NilEmpty.string_of_uint (Nat.to_uint n).

(** A mutator of the transforms, run on the world. *)
Definition on_transforms (f : Env -> Env) (w : World) : World :=
  Engine.with_transforms w (f (transforms w)).

(** Create body from an OpenRAVE KinBody.  [cls] is [type(self).__name__]. *)
Definition init (cls : string) (kinbody : KinBody)
  (pos rpy : option vec3) (pose : option pose7) (color : option string)
  (visible : bool) (transparency : option Qc) (name : option string)
  (w : World) : World * Instance :=
  let w :=
    if String.eqb (Engine.GetName w kinbody) "" then
      let (name, w) :=
        match name with
        | None =>
            ((cls ++ str (body_count w))%string,
             Engine.with_count w (body_count w + 1))
        | Some name => (name, w)
        end in
      Engine.SetName kinbody name w
    else w in
  let self := {| rave := kinbody |} in
  let w := match pos with
           | Some pos => on_transforms (Body.set_pos self pos) w
           | None => w
           end in
  let w := match rpy with
           | Some rpy => on_transforms (Body.set_rpy self rpy) w
           | None => w
           end in
  let w := match pose with
           | Some pose => on_transforms (Body.set_pose self pose) w
           | None => w
           end in
  let w := match color with
           | Some color => set_color self color w
           | None => w
           end in
  let w := if negb visible
           then fst (set_visible {| wrapped := self; is_visible := visible |}
                       false w)
           else w in
  let w := match transparency with
           | Some t => set_transparency self t w
           | None => w
           end in
  (w, {| wrapped := self; is_visible := visible |}).

End Methods.

End BodyObject.

(** [class Box(Body)]: a body with the attributes [X], [Y] and [Z]. *)
Record BoxObject := {
  box_instance : Instance;
  X : Qc;
  Y : Qc;
  Z : Qc }.

(** [class PointMass(Point)]: a point, with its velocity, and a mass. *)
Record PointMassObject := {
  mass_box : BoxObject;
  mass_pd : vec3;
  mass : Qc }.

Module Shapes.

Section Constructors.

Context {ext : External}.

(** The kinbody [RaveCreateKinBody(env, '')] returns, and the attributes the
    engine gives a new geometry. *)
Variables (box : KinBody) (fresh : Geometry).

(** [Box.__init__]: create a new rectangular box.  [cls] is the name of the
    class of the object under construction. *)
Definition Box_init (cls : string) (X Y Z : Qc)
  (pos rpy : option vec3) (pose : option pose7) (color : option string)
  (visible : bool) (transparency : option Qc) (name : option string)
  (dZ : Qc) (w : World) : World * BoxObject :=
  let aabb := {| aabb_pos := V3 0 0 dZ; aabb_extents := V3 X Y Z |} in
  let w := Engine.InitFromBoxes box [aabb] fresh w in
  let (w, self) :=
    BodyObject.init cls box pos rpy pose color visible transparency name w in
  let w := Engine.Add box w in
  (w, {| box_instance := self; X := X; Y := Y; Z := Z |}).

(** [Cube.__init__]: create a new cube. *)
Definition Cube_init (cls : string) (size : Qc)
  (pos rpy : option vec3) (pose : option pose7) (color : option string)
  (visible : bool) (transparency : option Qc) (name : option string)
  (w : World) : World * BoxObject :=
  Box_init cls size size size pos rpy pose color visible transparency name 0 w.

(** [Point.__init__]: points are simply cubes with a default size.  The
    result is the cube and the velocity [__pd]. *)
Definition Point_init (cls : string) (pos : option vec3) (size : Qc)
  (color : option string) (visible : bool) (transparency : option Qc)
  (name : option string) (w : World) : World * (BoxObject * vec3) :=
  let pos := match pos with
             | None => V3 0 0 0
             | Some pos => pos
             end in
  let (w, self) :=
    Cube_init cls size (Some pos) None None color visible transparency name
      w in
  (w, (self, Np.zeros3)).

(** Python's [max] of two numbers. *)
Definition max (a b : Qc) : Qc := if a <? b then b else a.

(** [PointMass.__init__]: a point-mass is a simple cube with size
    proportional to its mass. *)
Definition PointMass_init (pos : option vec3) (mass : Qc)
  (color : option string) (visible : bool) (transparency : option Qc)
  (name : option string) (w : World) : World * PointMassObject :=
  let size := max (Num.dec 5e-3) (Num.dec 6e-4 * mass) in
  let '(w, (self, pd)) :=
    Point_init "PointMass" pos size color visible transparency name w in
  (w, {| mass_box := self; mass_pd := pd; mass := mass |}).

End Constructors.

(** The point of [Module Point] a point-mass is. *)
Definition as_point (self : PointMassObject) : Point :=
  {| body := wrapped (box_instance (mass_box self)); __pd := mass_pd self |}.

End Shapes.

(** * Properties *)

(** ** Rational arithmetic *)

Module NumFacts.

Lemma this_add (a b : Qc) : (this (a + b) == this a + this b)%Q.
Proof. exact (Qred_correct _). Qed.

Lemma this_mul (a b : Qc) : (this (a * b) == this a * this b)%Q.
Proof. exact (Qred_correct _). Qed.

Lemma this_opp (a : Qc) : (this (- a) == - this a)%Q.
Proof. exact (Qred_correct _). Qed.

Lemma this_sub (a b : Qc) : (this (a - b) == this a - this b)%Q.
Proof. unfold Qcminus. rewrite this_add, this_opp. reflexivity. Qed.

Lemma this_eq (a b : Qc) : a = b -> (this a == this b)%Q.
Proof. intros ->. reflexivity. Qed.

Lemma ltb_lt (a b : Qc) : (a <? b) = true <-> a < b.
Proof.
  unfold Num.ltb. destruct (Qclt_le_dec a b) as [Hlt | Hle].
  - tauto.
  - split; [discriminate |]. intros Hlt.
    exfalso. exact (Qcle_not_lt _ _ Hle Hlt).
Qed.

Lemma ltb_ge (a b : Qc) : (a <? b) = false <-> b <= a.
Proof.
  unfold Num.ltb. destruct (Qclt_le_dec a b) as [Hlt | Hle].
  - split; [discriminate |]. intros Hle.
    exfalso. exact (Qcle_not_lt _ _ Hle Hlt).
  - tauto.
Qed.

Lemma mul_neg1 (a : Qc) : a * - (1) = - a.
Proof. ring. Qed.

Lemma sq_mul (a : Qc) : Num.sq a = a * a.
Proof. unfold Num.sq. cbn [Qcpower]. ring. Qed.

End NumFacts.

(** Orders on [Qc] are orders on the underlying fractions: push the
    projection through the operations and decide with linear arithmetic. *)
Ltac qc_to_q :=
  unfold Qclt, Qcle in *;
  repeat match goal with
         | H : @eq Qc _ _ |- _ => apply NumFacts.this_eq in H
         end;
  repeat (rewrite ?NumFacts.this_sub, ?NumFacts.this_add, ?NumFacts.this_mul,
            ?NumFacts.this_opp in * );
  change (this 0) with 0%Q in *;
  change (this 1) with 1%Q in *.

Ltac qc_lra := qc_to_q; lra.

(** Equality of two closed structures of rationals: evaluate, then compare
    the fractions component by component. *)
Ltac qc_components :=
  lazymatch goal with
  | |- @eq Qc _ _ => apply Qc_is_canon; reflexivity
  | |- _ => try reflexivity; progress f_equal; qc_components
  end.

Ltac qc_eval := vm_compute; qc_components.

(** ** The environment *)

Section EnvFacts.

Context {ext : External}.

Lemma T_set_transform (self : Body) (M : mat4) (env : Env) :
  Body.T (Body.set_transform self M env) self = M.
Proof.
  unfold Body.T, Body.set_transform, GetTransform, SetTransform.
  now rewrite Nat.eqb_refl.
Qed.

Lemma T_set_transform_other (self other : Body) (M : mat4) (env : Env) :
  rave other <> rave self ->
  Body.T (Body.set_transform self M env) other = Body.T env other.
Proof.
  intros Hne. unfold Body.T, Body.set_transform, GetTransform, SetTransform.
  destruct (Nat.eqb_spec (rave other) (rave self)); [contradiction | reflexivity].
Qed.

Lemma block33_set_col3 (M : mat4) (pos : vec3) :
  Np.block33 (Np.set_col3 M pos) = Np.block33 M.
Proof. reflexivity. Qed.

Lemma col3_set_col3 (M : mat4) (pos : vec3) :
  Np.col3 (Np.set_col3 M pos) = pos.
Proof. now destruct pos. Qed.

Lemma col3_set_block33 (M : mat4) (A : mat3) :
  Np.col3 (Np.set_block33 M A) = Np.col3 M.
Proof. reflexivity. Qed.

Lemma block33_set_block33 (M : mat4) (A : mat3) :
  Np.block33 (Np.set_block33 M A) = A.
Proof. now destruct A. Qed.

Lemma p_set_pos (self : Body) (pos : vec3) (env : Env) :
  Body.p (Body.set_pos self pos env) self = pos.
Proof.
  unfold Body.p, Body.set_pos. rewrite T_set_transform. apply col3_set_col3.
Qed.

Lemma R_set_pos (self : Body) (pos : vec3) (env : Env) :
  Body.R (Body.set_pos self pos env) self = Body.R env self.
Proof.
  unfold Body.R, Body.set_pos. rewrite T_set_transform. apply block33_set_col3.
Qed.

Lemma R_set_rotation_matrix (self : Body) (A : mat3) (env : Env) :
  Body.R (Body.set_rotation_matrix self A env) self = A.
Proof.
  unfold Body.R, Body.set_rotation_matrix. rewrite T_set_transform.
  apply block33_set_block33.
Qed.

Lemma p_set_rotation_matrix (self : Body) (A : mat3) (env : Env) :
  Body.p (Body.set_rotation_matrix self A env) self = Body.p env self.
Proof.
  unfold Body.p, Body.set_rotation_matrix. rewrite T_set_transform.
  apply col3_set_block33.
Qed.

Lemma R_set_rpy (self : Body) (rpy : vec3) (env : Env) :
  Body.R (Body.set_rpy self rpy env) self
  = rotation_matrix_from_rpy (v0 rpy) (v1 rpy) (v2 rpy).
Proof.
  unfold Body.R, Body.set_rpy. rewrite T_set_transform.
  apply block33_set_block33.
Qed.

Lemma p_set_rpy (self : Body) (rpy : vec3) (env : Env) :
  Body.p (Body.set_rpy self rpy env) self = Body.p env self.
Proof.
  unfold Body.p, Body.set_rpy. rewrite T_set_transform.
  apply col3_set_block33.
Qed.

(** The pose accessor keeps the translation of the transform. *)
Lemma pose_trans_pose (env : Env) (self : Body) :
  pose_trans (Body.pose env self) = Body.p env self.
Proof.
  unfold Body.pose, GetTransformPose, Body.p, Body.T.
  now destruct (_ <? _).
Qed.

Lemma col3_matrixFromPose (P : pose7) :
  Np.col3 (matrixFromPose P) = pose_trans P.
Proof. unfold matrixFromPose, Np.col3. cbn. now destruct (pose_trans P). Qed.

Lemma block33_matrixFromPose (P : pose7) :
  Np.block33 (matrixFromPose P) = rotationMatrixFromQuat (pose_quat P).
Proof.
  unfold matrixFromPose, Np.block33. cbn.
  now destruct (rotationMatrixFromQuat (pose_quat P)).
Qed.

End EnvFacts.

(** ** The pose accessor *)

Section PoseFacts.

Context {ext : External}.

(** C2.  In every state the pose accessor returns a pose whose first
    component, the scalar part of the quaternion, is not negative.  When the
    raw conversion [GetTransformPose] has a negative scalar part, the four
    quaternion components returned are the opposites of the raw ones; when it
    has not, the raw pose is returned as it is.  The translation components
    are those of the raw pose in both cases. *)
Theorem pose_scalar_part_nonnegative (env : Env) (self : Body) :
  let raw := GetTransformPose env (rave self) in
  let pose := Body.pose env self in
  0 <= q0 (pose_quat pose)
  /\ (q0 (pose_quat raw) < 0 ->
      pose_quat pose = Quat (- q0 (pose_quat raw)) (- q1 (pose_quat raw))
                            (- q2 (pose_quat raw)) (- q3 (pose_quat raw)))
  /\ (0 <= q0 (pose_quat raw) -> pose = raw)
  /\ pose_trans pose = pose_trans raw.
Proof.
  cbv zeta. unfold Body.pose.
  destruct (q0 (pose_quat (GetTransformPose env (rave self))) <? 0) eqn:Hneg.
  - apply NumFacts.ltb_lt in Hneg. cbn [pose_quat pose_trans].
    repeat split.
    + unfold Np.neg4. cbn [q0]. rewrite NumFacts.mul_neg1. qc_lra.
    + intros _. unfold Np.neg4. now rewrite !NumFacts.mul_neg1.
    + intros Hpos. exfalso. exact (Qcle_not_lt _ _ Hpos Hneg).
  - apply NumFacts.ltb_ge in Hneg. repeat split; trivial.
    intros Hlt. exfalso. exact (Qcle_not_lt _ _ Hneg Hlt).
Qed.

End PoseFacts.

(** ** Partial mutators *)

Section MutatorFacts.

Context {ext : External}.

Lemma set_x_frame (self : Body) (v : Qc) (env : Env) :
  let env' := Body.set_x self v env in
  Body.x env' self = v
  /\ Body.y env' self = Body.y env self
  /\ Body.z env' self = Body.z env self
  /\ Body.R env' self = Body.R env self
  /\ Np.row3 (Body.T env' self) = Np.row3 (Body.T env self).
Proof.
  cbv zeta. unfold Body.x, Body.y, Body.z, Body.p, Body.R, Body.set_x.
  rewrite T_set_transform. repeat split.
Qed.

Lemma set_y_frame (self : Body) (v : Qc) (env : Env) :
  let env' := Body.set_y self v env in
  Body.y env' self = v
  /\ Body.x env' self = Body.x env self
  /\ Body.z env' self = Body.z env self
  /\ Body.R env' self = Body.R env self
  /\ Np.row3 (Body.T env' self) = Np.row3 (Body.T env self).
Proof.
  cbv zeta. unfold Body.x, Body.y, Body.z, Body.p, Body.R, Body.set_y.
  rewrite T_set_transform. repeat split.
Qed.

Lemma set_z_frame (self : Body) (v : Qc) (env : Env) :
  let env' := Body.set_z self v env in
  Body.z env' self = v
  /\ Body.x env' self = Body.x env self
  /\ Body.y env' self = Body.y env self
  /\ Body.R env' self = Body.R env self
  /\ Np.row3 (Body.T env' self) = Np.row3 (Body.T env self).
Proof.
  cbv zeta. unfold Body.x, Body.y, Body.z, Body.p, Body.R, Body.set_z.
  rewrite T_set_transform. repeat split.
Qed.

Lemma set_quat_frame (self : Body) (q : vec4) (env : Env) :
  pose_trans (Body.pose (Body.set_quat self q env) self)
  = pose_trans (Body.pose env self).
Proof.
  rewrite !pose_trans_pose. unfold Body.set_quat, Body.set_pose.
  unfold Body.p at 1. rewrite T_set_transform, col3_matrixFromPose.
  cbn [pose_trans]. apply pose_trans_pose.
Qed.

(** Every mutator leaves the transforms of the other bodies alone. *)
Lemma mutators_leave_other_bodies (self other : Body) (env : Env)
  (v : Qc) (pos : vec3) (A : mat3) (q : vec4) (P : pose7) :
  rave other <> rave self ->
  Body.T (Body.set_x self v env) other = Body.T env other
  /\ Body.T (Body.set_y self v env) other = Body.T env other
  /\ Body.T (Body.set_z self v env) other = Body.T env other
  /\ Body.T (Body.set_pos self pos env) other = Body.T env other
  /\ Body.T (Body.set_rotation_matrix self A env) other = Body.T env other
  /\ Body.T (Body.set_rpy self pos env) other = Body.T env other
  /\ Body.T (Body.set_pose self P env) other = Body.T env other
  /\ Body.T (Body.set_quat self q env) other = Body.T env other.
Proof.
  intros Hne.
  unfold Body.set_x, Body.set_y, Body.set_z, Body.set_pos,
    Body.set_rotation_matrix, Body.set_rpy, Body.set_quat, Body.set_pose.
  repeat split; now apply T_set_transform_other.
Qed.

(** C4.  Each partial mutator overwrites its own component of the transform
    and keeps every other one: [set_x] sets [x] and keeps [y], [z] and the
    rotation block, and likewise [set_y] and [set_z]; [set_pos] sets the
    position and keeps the rotation block; [set_rotation_matrix] sets the
    rotation block and keeps the position; [set_quat] keeps the translation
    components of the pose. *)
Theorem partial_mutators_preserve_the_rest (self : Body) (env : Env)
  (v : Qc) (pos : vec3) (A : mat3) (q : vec4) :
  (Body.x (Body.set_x self v env) self = v
   /\ Body.y (Body.set_x self v env) self = Body.y env self
   /\ Body.z (Body.set_x self v env) self = Body.z env self
   /\ Body.R (Body.set_x self v env) self = Body.R env self)
  /\ (Body.y (Body.set_y self v env) self = v
      /\ Body.x (Body.set_y self v env) self = Body.x env self
      /\ Body.z (Body.set_y self v env) self = Body.z env self
      /\ Body.R (Body.set_y self v env) self = Body.R env self)
  /\ (Body.z (Body.set_z self v env) self = v
      /\ Body.x (Body.set_z self v env) self = Body.x env self
      /\ Body.y (Body.set_z self v env) self = Body.y env self
      /\ Body.R (Body.set_z self v env) self = Body.R env self)
  /\ (Body.p (Body.set_pos self pos env) self = pos
      /\ Body.R (Body.set_pos self pos env) self = Body.R env self)
  /\ (Body.R (Body.set_rotation_matrix self A env) self = A
      /\ Body.p (Body.set_rotation_matrix self A env) self = Body.p env self)
  /\ pose_trans (Body.pose (Body.set_quat self q env) self)
     = pose_trans (Body.pose env self).
Proof.
  pose proof (set_x_frame self v env) as Hx.
  pose proof (set_y_frame self v env) as Hy.
  pose proof (set_z_frame self v env) as Hz.
  cbv zeta in Hx, Hy, Hz.
  repeat split; try tauto.
  - apply p_set_pos.
  - apply R_set_pos.
  - apply R_set_rotation_matrix.
  - apply p_set_rotation_matrix.
  - apply set_quat_frame.
Qed.

(** ** Twists *)

(** C5.  [apply_twist] sets the position to [p + v * dt] and the rotation
    block to [R + (crossmat omega . R) * dt], where [p] and [R] are the
    position and the rotation block read before the call: the two updates do
    not interfere, and nothing renormalises the block that is stored.  The
    position is not [p + (R . v) * dt]: the two differ for the body turned
    half way about its first axis. *)
Theorem apply_twist_first_order (self : Body) (v omega : vec3) (dt : Qc)
  (env : Env) :
  let env' := Body.apply_twist self v omega dt env in
  Body.p env' self = Np.add3 (Body.p env self) (Np.scale3 v dt)
  /\ Body.R env' self
     = Np.madd (Body.R env self)
               (Np.mscale (Np.mdot (crossmat omega) (Body.R env self)) dt)
  /\ exists env1 w s,
       Body.p (Body.apply_twist self w omega s env1) self
       <> rotated_twist_position env1 self w s.
Proof.
  cbv zeta. unfold Body.apply_twist. repeat split.
  - rewrite p_set_rotation_matrix. apply p_set_pos.
  - rewrite R_set_rotation_matrix, R_set_pos. reflexivity.
  - exists (Body.set_transform self Reference.turn_x env), (V3 0 1 0), 1.
    rewrite p_set_rotation_matrix, p_set_pos.
    unfold rotated_twist_position, Body.p, Body.R.
    rewrite T_set_transform. vm_compute. discriminate.
Qed.

End MutatorFacts.

(** ** The point-mass integrator *)

Section PointFacts.

Context {ext : External}.

Lemma integrate_acceleration_position (self : Point) (pdd : vec3) (dt : Qc)
  (env : Env) :
  Body.p (fst (Point.integrate_acceleration self pdd dt env)) (body self)
  = kinematic_position (Body.p env (body self)) (Point.pd self) pdd dt.
Proof.
  unfold Point.integrate_acceleration. cbn [fst]. rewrite p_set_pos.
  unfold kinematic_position, Np.add3, Np.scale3. cbn [v0 v1 v2].
  rewrite NumFacts.sq_mul. f_equal; ring.
Qed.

Lemma integrate_acceleration_velocity (self : Point) (pdd : vec3) (dt : Qc)
  (env : Env) :
  Point.pd (snd (Point.integrate_acceleration self pdd dt env))
  = kinematic_velocity (Point.pd self) pdd dt.
Proof. reflexivity. Qed.

Lemma integrate_acceleration_zero (self : Point) (pdd : vec3) (env : Env) :
  (forall k, fst (Point.integrate_acceleration self pdd 0 env) k = env k)
  /\ snd (Point.integrate_acceleration self pdd 0 env) = self.
Proof.
  unfold Point.integrate_acceleration. cbn [fst snd]. split.
  - intros k. unfold Body.set_pos, Body.set_transform, SetTransform.
    destruct (Nat.eqb_spec k (rave (body self))) as [-> | Hne]; [| reflexivity].
    unfold Body.p, Body.T, GetTransform.
    destruct (env (rave (body self))).
    rewrite NumFacts.sq_mul.
    unfold Np.set_col3, Np.add3, Np.scale3, Np.col3.
    cbn [v0 v1 v2 t00 t01 t02 t03 t10 t11 t12 t13 t20 t21 t22 t23 t30 t31
         t32 t33].
    f_equal; ring.
  - unfold Point.set_velocity, Point.pd. destruct self as [b [a0 a1 a2]].
    unfold Np.add3, Np.scale3. cbn [body __pd v0 v1 v2]. do 2 f_equal; ring.
Qed.

(** C3.  For every point with position [p] and velocity [v], every
    acceleration [a] and every duration [dt] (a duration that is not negative
    in particular), one call of [integrate_acceleration] sets the position to
    [p + v dt + 0.5 a dt^2], with the velocity [v] of before the call, and the
    velocity to [v + a dt].  With [dt = 0] the environment and the point are
    unchanged.  A point created at the origin, hence with zero velocity, and
    integrated with [a = (0, 0, -9.8)] for [dt = 1] ends at position
    [(0, 0, -4.9)] with velocity [(0, 0, -9.8)]. *)
Theorem integrate_acceleration_kinematics (self : Point) (a : vec3) (dt : Qc)
  (env : Env) :
  (Body.p (fst (Point.integrate_acceleration self a dt env)) (body self)
   = kinematic_position (Body.p env (body self)) (Point.pd self) a dt
   /\ Point.pd (snd (Point.integrate_acceleration self a dt env))
      = kinematic_velocity (Point.pd self) a dt)
  /\ ((forall k, fst (Point.integrate_acceleration self a 0 env) k = env k)
      /\ snd (Point.integrate_acceleration self a 0 env) = self)
  /\ (let (env0, point) := Point.init (body self) None env in
      let gravity := V3 0 0 (- Num.dec 9.8) in
      let (env1, point1) := Point.integrate_acceleration point gravity 1 env0 in
      Body.p env1 (body point1) = V3 0 0 (- Num.dec 4.9)
      /\ Point.pd point1 = V3 0 0 (- Num.dec 9.8)).
Proof.
  split; [split | split].
  - apply integrate_acceleration_position.
  - apply integrate_acceleration_velocity.
  - apply integrate_acceleration_zero.
  - unfold Point.init, Point.integrate_acceleration, Point.set_velocity,
      Point.pd.
    cbv beta iota zeta. cbn [body __pd]. rewrite !p_set_pos. split.
    + rewrite NumFacts.sq_mul. unfold Np.add3, Np.scale3, Np.zeros3.
      cbn [v0 v1 v2]. f_equal; apply Qc_is_canon; reflexivity.
    + unfold Np.add3, Np.scale3, Np.zeros3.
      cbn [v0 v1 v2]. f_equal; apply Qc_is_canon; reflexivity.
Qed.

End PointFacts.

(** ** Array arithmetic *)

Module NpFacts.

Lemma zip_with_length (f : Qc -> Qc -> Qc) (a b : Np.ndarray) :
  length a = length b -> length (Np.zip_with f a b) = length b.
Proof.
  revert b. induction a as [| x a IH]; intros [| y b] Hlen;
    cbn in *; try discriminate; auto.
Qed.

(** numpy's rule for two one-dimensional operands. *)
Lemma broadcast_cases (f : Qc -> Qc -> Qc) (a b : Np.ndarray) :
  match Np.broadcast f a b with
  | Some c => (length a = length b /\ length c = length b)
              \/ (length a = 1%nat /\ length c = length b)
              \/ (length b = 1%nat /\ length c = length a)
  | None => length a <> length b /\ length a <> 1%nat /\ length b <> 1%nat
  end.
Proof.
  unfold Np.broadcast.
  destruct (Nat.eqb_spec (length a) (length b)) as [Heq | Hne].
  - left. split; [assumption | now apply zip_with_length].
  - destruct a as [| x [| x' a]]; destruct b as [| y [| y' b]];
      cbn in *; rewrite ?length_map; try congruence;
      first [ right; left; split; reflexivity
            | right; right; split; reflexivity
            | repeat split; congruence ].
Qed.

Lemma broadcast_is_some (f : Qc -> Qc -> Qc) (a b : Np.ndarray) :
  match Np.broadcast f a b with Some _ => true | None => false end
  = Nat.eqb (length a) (length b) || Nat.eqb (length a) 1
    || Nat.eqb (length b) 1.
Proof.
  pose proof (broadcast_cases f a b) as H.
  destruct (Np.broadcast f a b).
  - symmetry. rewrite !orb_true_iff, !Nat.eqb_eq. tauto.
  - symmetry. rewrite !orb_false_iff, !Nat.eqb_neq. tauto.
Qed.

Lemma np_sub_is_ok (a b : Np.ndarray) :
  is_ok (np_sub a b)
  = Nat.eqb (length a) (length b) || Nat.eqb (length a) 1
    || Nat.eqb (length b) 1.
Proof.
  rewrite <- (broadcast_is_some Qcminus). unfold np_sub.
  now destruct (Np.broadcast Qcminus a b).
Qed.

Lemma np_mul_is_ok (a b : Np.ndarray) :
  is_ok (np_mul a b)
  = Nat.eqb (length a) (length b) || Nat.eqb (length a) 1
    || Nat.eqb (length b) 1.
Proof.
  rewrite <- (broadcast_is_some Qcmult). unfold np_mul.
  now destruct (Np.broadcast Qcmult a b).
Qed.

(** Against an operand of seven components, the result has seven. *)
Lemma np_sub_length7 (a b c : Np.ndarray) :
  length b = 7%nat -> np_sub a b = Ok c -> length c = 7%nat.
Proof.
  intros Hb. unfold np_sub.
  pose proof (broadcast_cases Qcminus a b) as H.
  destruct (Np.broadcast Qcminus a b); [| discriminate].
  intros [= <-]. rewrite Hb in H. lia.
Qed.

Lemma np_mul_length7 (a b c : Np.ndarray) :
  length a = 7%nat -> (length b = 7%nat \/ length b = 1%nat) ->
  np_mul a b = Ok c -> length c = 7%nat.
Proof.
  intros Ha Hb. unfold np_mul.
  pose proof (broadcast_cases Qcmult a b) as H.
  destruct (Np.broadcast Qcmult a b); [| discriminate].
  intros [= <-]. rewrite Ha in H. lia.
Qed.

Lemma np_dot_same (a : Np.ndarray) : is_ok (np_dot a a) = true.
Proof. unfold np_dot, Np.dot. now rewrite Nat.eqb_refl. Qed.

End NpFacts.

(** ** Link tasks *)

Section TaskFacts.

Context {ext : External}.

Variables (gain weight : option Qc) (exclude_dofs : option (list nat)).

Let pos_task (link : Body) (target : pyobj) : result Task :=
  LinkPosTask.init link target gain weight exclude_dofs.

Let pose_task (link : Body) (target : pyobj) : result Task :=
  LinkPoseTask.init link target gain weight exclude_dofs.

(** *** Construction *)

Lemma pos_task_body (link tb : Body) :
  exists task, pos_task link (PyBody tb) = Ok task
    /\ forall env, pos_residual task env
                   = np_sub (Np.of_vec3 (Body.p env tb))
                            (Np.of_vec3 (Body.p env link)).
Proof. eexists. split; reflexivity. Qed.

Lemma pos_task_array (link : Body) (a : Np.ndarray) :
  exists task, pos_task link (PyArray a) = Ok task
    /\ pos_task link (PyList a) = Ok task
    /\ forall env, pos_residual task env
                   = np_sub a (Np.of_vec3 (Body.p env link)).
Proof. eexists. repeat split; reflexivity. Qed.

Lemma pose_task_body (link tb : Body) :
  exists task, pose_task link (PyBody tb) = Ok task
    /\ forall env, pos_residual task env
                   = LinkPoseTask.residual_of
                       (Np.of_pose (Body.pose env tb))
                       (Np.of_pose (Body.pose env link)).
Proof. eexists. split; reflexivity. Qed.

Lemma pose_task_array (link : Body) (a : Np.ndarray) :
  exists task, pose_task link (PyArray a) = Ok task
    /\ pose_task link (PyList a) = Ok task
    /\ forall env, pos_residual task env
                   = LinkPoseTask.residual_of
                       a (Np.of_pose (Body.pose env link)).
Proof. eexists. repeat split; reflexivity. Qed.

Lemma task_rejected (link : Body) (target : pyobj) :
  accepted_target target = false ->
  pos_task link target
  = Raise (Exception ("Target " ++ type_repr target ++ " has no 'p' attribute"))
  /\ pose_task link target
     = Raise (Exception
                ("Target " ++ type_repr target ++ " has no 'pose' attribute")).
Proof. destruct target; cbn; try discriminate; intros _; split; reflexivity. Qed.

(** *** The position residual *)

(** C9 (as amended).  For every [LinkPosTask] whose construction succeeds
    and whose target has a position (a body, or a list or an array of three
    coordinates), and in every state, the residual is the target's position
    minus the link's position, a vector of three components, both positions
    being those of the state the residual is evaluated in.  With the target
    vector [(1, 0, 0)] and the link at the origin the residual is
    [(1, 0, 0)], and once the link is moved to [(1, 0, 0)] it is
    [(0, 0, 0)]. *)
Theorem link_pos_residual_is_difference (link : Body) :
  (forall target task,
      pos_task link target = Ok task ->
      forall env tp,
        target_position env target = Some tp ->
        pos_residual task env
        = Ok (Np.of_vec3 (Np.sub3 tp (Body.p env link))))
  /\ (forall env,
         exists task,
           pos_task link (PyArray [1; 0; 0]) = Ok task
           /\ pos_residual task (Body.set_pos link (V3 0 0 0) env)
              = Ok [1; 0; 0]
           /\ pos_residual task
                (Body.set_pos link (V3 1 0 0)
                   (Body.set_pos link (V3 0 0 0) env))
              = Ok [0; 0; 0]).
Proof.
  split.
  - intros target task Hinit env tp Htp.
    destruct target as [items | a | items | tb |]; try discriminate Htp.
    + destruct items as [| a [| b [| c [| d items]]]]; try discriminate Htp.
      injection Htp as <-. injection Hinit as <-. reflexivity.
    + destruct a as [| a [| b [| c [| d items]]]]; try discriminate Htp.
      injection Htp as <-. injection Hinit as <-. reflexivity.
    + injection Htp as <-. injection Hinit as <-. reflexivity.
  - intros env. eexists. split; [reflexivity |].
    cbn [pos_residual bind as_ndarray]. rewrite !p_set_pos. split.
    + cbn. repeat f_equal; ring.
    + cbn. repeat f_equal; ring.
Qed.

(** *** The pose residual *)

Lemma pose_difference_length (P L : pose7) :
  length (pose_difference P L) = 7%nat.
Proof. reflexivity. Qed.

Lemma negated_quaternion_involutive (P : pose7) :
  negated_quaternion (negated_quaternion P) = P.
Proof.
  destruct P as [[a b c d] t]. unfold negated_quaternion. cbn.
  now rewrite !Qcopp_involutive.
Qed.

(** The residual of a seven-component target against a link pose. *)
Lemma residual_of_poses (P L : pose7) :
  LinkPoseTask.residual_of (Np.of_pose P) (Np.of_pose L)
  = Ok (if opposite_side P L
        then pose_difference (negated_quaternion P) L
        else pose_difference P L).
Proof.
  unfold LinkPoseTask.residual_of, opposite_side.
  change (np_sub (Np.of_pose P) (Np.of_pose L)) with (Ok (pose_difference P L)).
  cbn [bind].
  change (np_dot (firstn 4 (pose_difference P L))
                 (firstn 4 (pose_difference P L)))
    with (Ok (quat_dist2 (pose_quat P) (pose_quat L))).
  cbn [bind].
  destruct (1 <? quat_dist2 (pose_quat P) (pose_quat L)); [| reflexivity].
  destruct P as [[a b c d] [x y z]], L as [[a' b' c' d'] [x' y' z']].
  cbn. unfold pose_difference, negated_quaternion. cbn.
  repeat f_equal; ring.
Qed.

(** The pose residual evaluates exactly for targets of seven components or
    of one. *)
Lemma residual_of_is_ok (a : Np.ndarray) (L : pose7) :
  is_ok (LinkPoseTask.residual_of a (Np.of_pose L))
  = Nat.eqb (length a) 7 || Nat.eqb (length a) 1.
Proof.
  unfold LinkPoseTask.residual_of.
  pose proof (NpFacts.np_sub_is_ok a (Np.of_pose L)) as Hsub.
  change (length (Np.of_pose L)) with 7%nat in Hsub.
  change (Nat.eqb 7 1) with false in Hsub. rewrite orb_false_r in Hsub.
  destruct (np_sub a (Np.of_pose L)) as [r | e] eqn:Hr; cbn [bind is_ok] in *;
    [| assumption].
  pose proof (NpFacts.np_dot_same (firstn 4 r)) as Hdot.
  destruct (np_dot (firstn 4 r) (firstn 4 r)) as [d | e]; [| discriminate].
  cbn [bind]. destruct (1 <? d); [| assumption].
  pose proof (NpFacts.np_mul_is_ok _oppose_quat a) as Hmul.
  change (length _oppose_quat) with 7%nat in Hmul.
  assert (Hlen : length a = 7%nat \/ length a = 1%nat).
  { symmetry in Hsub. rewrite orb_true_iff, !Nat.eqb_eq in Hsub. exact Hsub. }
  destruct (np_mul _oppose_quat a) as [o | e] eqn:Ho; cbn [bind is_ok] in *.
  - rewrite NpFacts.np_sub_is_ok.
    rewrite (NpFacts.np_mul_length7 _oppose_quat a o eq_refl Hlen Ho).
    rewrite <- Hsub. reflexivity.
  - exfalso. destruct Hlen as [Hlen | Hlen]; rewrite Hlen in Hmul;
      discriminate Hmul.
Qed.

Lemma quat_dist2_dot (a b : vec4) :
  quat_dist2 a b = quat_dot a a + quat_dot b b - (1 + 1) * quat_dot a b.
Proof. destruct a, b. unfold quat_dist2, quat_dot. cbn. ring. Qed.

Lemma quat_dot_negated (P : pose7) (b : vec4) :
  quat_dot (pose_quat (negated_quaternion P)) b = - quat_dot (pose_quat P) b
  /\ quat_dot (pose_quat (negated_quaternion P))
              (pose_quat (negated_quaternion P))
     = quat_dot (pose_quat P) (pose_quat P).
Proof.
  destruct P as [[w x y z] t], b. unfold quat_dot, negated_quaternion. cbn.
  split; ring.
Qed.

(** For unit quaternions the test fires when the dot product of the two
    quaternions is below one half. *)
Lemma opposite_side_unit (P L : pose7) :
  unit_quat (pose_quat P) -> unit_quat (pose_quat L) ->
  (opposite_side P L = true
   <-> quat_dot (pose_quat P) (pose_quat L) < Num.dec 0.5)
  /\ (opposite_side (negated_quaternion P) L = true
      <-> - Num.dec 0.5 < quat_dot (pose_quat P) (pose_quat L)).
Proof.
  unfold unit_quat, opposite_side. intros HP HL.
  destruct (quat_dot_negated P (pose_quat L)) as [Hdot Hnorm].
  rewrite !NumFacts.ltb_lt, !quat_dist2_dot, Hdot, Hnorm, HP, HL.
  generalize (quat_dot (pose_quat P) (pose_quat L)). intros t.
  clear. unfold Num.dec.
  assert (Hhalf : (this (Q2Qc 0.5) == 1 # 2)%Q) by reflexivity.
  split; split; intros H; revert H; qc_to_q; rewrite Hhalf; intros H; lra.
Qed.

Lemma one_side_for_close_unit_quaternions (P L : pose7) :
  unit_quat (pose_quat P) -> unit_quat (pose_quat L) ->
  (Num.dec 0.5 <= quat_dot (pose_quat P) (pose_quat L)
   \/ quat_dot (pose_quat P) (pose_quat L) <= - Num.dec 0.5) ->
  opposite_side P L = negb (opposite_side (negated_quaternion P) L).
Proof.
  intros HP HL Hclose.
  destruct (opposite_side_unit P L HP HL) as [Hfire Hfire'].
  revert Hclose Hfire Hfire'.
  generalize (quat_dot (pose_quat P) (pose_quat L)). intros t Hclose.
  assert (Hhalf : (this (Num.dec 0.5) == 1 # 2)%Q) by reflexivity.
  destruct (opposite_side P L), (opposite_side (negated_quaternion P) L);
    intros Hfire Hfire'; try reflexivity; exfalso.
  - pose proof (proj1 Hfire eq_refl) as H1.
    pose proof (proj1 Hfire' eq_refl) as H2.
    revert Hclose H1 H2. clear - Hhalf. qc_to_q. rewrite Hhalf. lra.
  - assert (H1 : Num.dec 0.5 <= t).
    { destruct (Qclt_le_dec t (Num.dec 0.5)) as [Hlt | Hle]; [| exact Hle].
      apply Hfire in Hlt. discriminate Hlt. }
    assert (H2 : t <= - Num.dec 0.5).
    { destruct (Qclt_le_dec (- Num.dec 0.5) t) as [Hlt | Hle]; [| exact Hle].
      apply Hfire' in Hlt. discriminate Hlt. }
    revert H1 H2. clear - Hhalf. qc_to_q. rewrite Hhalf. lra.
Qed.

(** C1 (as amended).  For a [LinkPoseTask] whose target is the pose [P], given
    as a vector of seven components or read from a body, and a link whose
    pose is [L]: the residual is [P - L] component by component, unless the
    squared norm of its first four components exceeds 1, in which case it is
    the residual for the target with its quaternion negated, whose last three
    components are those of [P - L].  The residual against [P] and the
    residual against the pose [P'] with the opposite quaternion are equal
    whenever the test fires for exactly one of [P] and [P'], which is the
    case for unit quaternions whose dot product is at least one half in
    absolute value. *)
Theorem link_pose_residual_double_cover (link : Body) (env : Env) :
  let L := Body.pose env link in
  let expected P :=
    Ok (if opposite_side P L
        then pose_difference (negated_quaternion P) L
        else pose_difference P L) in
  (forall P, exists task,
      pose_task link (PyArray (Np.of_pose P)) = Ok task
      /\ pos_residual task env = expected P)
  /\ (forall tb, exists task,
         pose_task link (PyBody tb) = Ok task
         /\ pos_residual task env = expected (Body.pose env tb))
  /\ (forall P, firstn 3 (skipn 4 (pose_difference (negated_quaternion P) L))
                = firstn 3 (skipn 4 (pose_difference P L)))
  /\ (forall P task task',
         pose_task link (PyArray (Np.of_pose P)) = Ok task ->
         pose_task link (PyArray (Np.of_pose (negated_quaternion P))) = Ok task' ->
         opposite_side P L = negb (opposite_side (negated_quaternion P) L) ->
         pos_residual task env = pos_residual task' env)
  /\ (forall P,
         unit_quat (pose_quat P) -> unit_quat (pose_quat L) ->
         (Num.dec 0.5 <= quat_dot (pose_quat P) (pose_quat L)
          \/ quat_dot (pose_quat P) (pose_quat L) <= - Num.dec 0.5) ->
         opposite_side P L = negb (opposite_side (negated_quaternion P) L)).
Proof.
  cbv zeta. repeat split.
  - intros P. eexists. split; [reflexivity |]. apply residual_of_poses.
  - intros tb. eexists. split; [reflexivity |]. apply residual_of_poses.
  - intros P task task' [= <-] [= <-] Hone.
    cbn [pos_residual bind as_ndarray]. rewrite !residual_of_poses.
    rewrite negated_quaternion_involutive, Hone.
    now destruct (opposite_side (negated_quaternion P) _).
  - intros P. apply one_side_for_close_unit_quaternions.
Qed.

(** C8 (as amended).  Construction of a [LinkPosTask] or a [LinkPoseTask]
    raises exactly when the target, a list being converted to an array
    first, neither provides the attribute ([p], [pose]) nor has the type
    [ndarray]; the exception names the type of the target.  The number of
    components of a list or an array is not looked at when the task is
    created: the residual of such a task evaluates, in every state, exactly
    when the target has as many components as the task space (3, 7) or a
    single one, and raises otherwise. *)
Theorem construction_checks_the_type_only (link : Body) (target : pyobj) :
  (is_ok (pos_task link target) = accepted_target target
   /\ is_ok (pose_task link target) = accepted_target target)
  /\ (accepted_target target = false ->
      pos_task link target
      = Raise (Exception
                 ("Target " ++ type_repr target ++ " has no 'p' attribute"))
      /\ pose_task link target
         = Raise (Exception
                    ("Target " ++ type_repr target
                     ++ " has no 'pose' attribute")))
  /\ (forall n task env,
         target_length target = Some n ->
         pos_task link target = Ok task ->
         is_ok (pos_residual task env) = Nat.eqb n 3 || Nat.eqb n 1)
  /\ (forall n task env,
         target_length target = Some n ->
         pose_task link target = Ok task ->
         is_ok (pos_residual task env) = Nat.eqb n 7 || Nat.eqb n 1).
Proof.
  split; [| split; [| split]].
  - destruct target; split; reflexivity.
  - apply task_rejected.
  - intros n task env Hn Hinit.
    assert (Hres : exists a, length a = n
              /\ pos_residual task env
                 = np_sub a (Np.of_vec3 (Body.p env link))).
    { destruct target as [a | a | | |]; try discriminate Hn;
        injection Hn as <-; injection Hinit as <-; exists a; split; reflexivity. }
    destruct Hres as (a & <- & ->). rewrite NpFacts.np_sub_is_ok.
    cbn. now rewrite orb_false_r.
  - intros n task env Hn Hinit.
    assert (Hres : exists a, length a = n
              /\ pos_residual task env
                 = LinkPoseTask.residual_of
                     a (Np.of_pose (Body.pose env link))).
    { destruct target as [a | a | | |]; try discriminate Hn;
        injection Hn as <-; injection Hinit as <-; exists a; split; reflexivity. }
    destruct Hres as (a & <- & ->). apply residual_of_is_ok.
Qed.

(** C10.  A target given as a Python list is accepted by both tasks: the
    list is converted to an array when the task is created, so that the task
    constructed is the one constructed for that array, and its residual in
    every state is the residual of that task. *)
Theorem list_target_is_the_array_target (link : Body) (items : list Qc) :
  (exists task,
      pos_task link (PyList items) = Ok task
      /\ pos_task link (PyArray items) = Ok task
      /\ forall env,
           pos_residual task env
           = np_sub items (Np.of_vec3 (Body.p env link)))
  /\ (exists task,
         pose_task link (PyList items) = Ok task
         /\ pose_task link (PyArray items) = Ok task
         /\ forall env,
              pos_residual task env
              = LinkPoseTask.residual_of
                  items (Np.of_pose (Body.pose env link))).
Proof.
  split.
  - destruct (pos_task_array link items) as (task & Harr & Hlist & Hres).
    exists task. auto.
  - destruct (pose_task_array link items) as (task & Harr & Hlist & Hres).
    exists task. auto.
Qed.

End TaskFacts.

(** ** Transforms and poses *)

Section RoundTrip.

Context {ext : External}.

Lemma mat4_by_blocks (A B : mat4) :
  Np.block33 A = Np.block33 B -> Np.col3 A = Np.col3 B ->
  Np.row3 A = Np.row3 B -> A = B.
Proof.
  destruct A, B. unfold Np.block33, Np.col3, Np.row3. cbn.
  intros [= -> -> -> -> -> -> -> -> ->] [= -> -> ->] [= -> -> -> ->].
  reflexivity.
Qed.

Lemma pose_quat_pose (env : Env) (self : Body) :
  let q := quatFromRotationMatrix (Body.R env self) in
  Body.quat env self = if q0 q <? 0 then Np.neg4 q else q.
Proof.
  cbv zeta. unfold Body.quat, Body.pose, GetTransformPose, Body.R, Body.T.
  cbn [pose_quat]. now destruct (_ <? _).
Qed.

Lemma rpy_is_rpy_of_rotation (env : Env) (self : Body) :
  Body.rpy env self = rpy_of_rotation (Body.R env self).
Proof. unfold Body.rpy, rpy_of_rotation. now rewrite pose_quat_pose. Qed.

(** C6.  Provided the two conversions of the engine are inverse of each
    other on proper rotations, and the conversion from quaternions gives the
    same rotation block for a quaternion and its opposite: for every body
    whose transform [T] is a valid rigid transform, reading the pose and
    passing it to [set_pose] leaves the environment as it was, and the
    transform of the body equal to [T] in particular, whether or not the pose
    accessor negated the quaternion. *)
Theorem pose_then_set_pose_restores_transform
  (conversions_inverse :
     forall M, is_rotation M ->
               rotationMatrixFromQuat (quatFromRotationMatrix M) = M)
  (either_sign :
     forall q, rotationMatrixFromQuat (Np.neg4 q) = rotationMatrixFromQuat q)
  (env : Env) (self : Body) :
  is_rigid (Body.T env self) ->
  let env' := Body.set_pose self (Body.pose env self) env in
  Body.T env' self = Body.T env self /\ forall k, env' k = env k.
Proof.
  intros [Hrot Hrow]. cbv zeta.
  assert (HT : matrixFromPose (Body.pose env self) = Body.T env self).
  { apply mat4_by_blocks.
    - rewrite block33_matrixFromPose.
      fold (Body.quat env self). rewrite pose_quat_pose. cbv zeta.
      destruct (_ <? _); rewrite ?either_sign; now apply conversions_inverse.
    - rewrite col3_matrixFromPose. apply pose_trans_pose.
    - now rewrite Hrow. }
  unfold Body.set_pose. rewrite HT. split.
  - apply T_set_transform.
  - intros k. unfold Body.set_transform, SetTransform.
    destruct (Nat.eqb_spec k (rave self)) as [-> | Hne]; reflexivity.
Qed.

(** ** Roll, pitch and yaw *)

Lemma rpy_set_rpy (self : Body) (angles : vec3) (env : Env) :
  Body.rpy (Body.set_rpy self angles env) self
  = rpy_of_rotation
      (rotation_matrix_from_rpy (v0 angles) (v1 angles) (v2 angles)).
Proof. now rewrite rpy_is_rpy_of_rotation, R_set_rpy. Qed.

(** [set_pitch] reads roll and yaw in the current state and writes them back
    with the new pitch. *)
Lemma set_pitch_rereads (self : Body) (pitch : Qc) (env : Env) :
  Body.R (Body.set_pitch self pitch env) self
  = rotation_matrix_from_rpy (Body.roll env self) pitch (Body.yaw env self)
  /\ Body.p (Body.set_pitch self pitch env) self = Body.p env self.
Proof.
  unfold Body.set_pitch. rewrite R_set_rpy, p_set_rpy. now split.
Qed.

Lemma small_rpy_tenths :
  small_rpy (Num.dec 0.1) 0 0 /\ small_rpy (Num.dec 0.1) (Num.dec 0.2) 0.
Proof. unfold small_rpy. repeat split; vm_compute; discriminate. Qed.

(** The angles read through the pose accessor are those of the raw
    quaternion of the engine, when the conversion to angles gives the same
    angles for a quaternion and its opposite. *)
Lemma rpy_of_raw_quaternion
  (either_sign : forall q, rpy_from_quat (Np.neg4 q) = rpy_from_quat q)
  (env : Env) (self : Body) :
  Body.rpy env self
  = rpy_from_quat (quatFromRotationMatrix (Body.R env self)).
Proof.
  rewrite rpy_is_rpy_of_rotation. unfold rpy_of_rotation.
  destruct (_ <? _); [apply either_sign | reflexivity].
Qed.

Lemma rpy_after_set_rpy
  (raw_read_back :
     forall roll pitch yaw,
       small_rpy roll pitch yaw ->
       rpy_from_quat
         (quatFromRotationMatrix (rotation_matrix_from_rpy roll pitch yaw))
       = V3 roll pitch yaw)
  (either_sign : forall q, rpy_from_quat (Np.neg4 q) = rpy_from_quat q)
  (self : Body) (roll pitch yaw : Qc) (env : Env) :
  small_rpy roll pitch yaw ->
  Body.rpy (Body.set_rpy self (V3 roll pitch yaw) env) self
  = V3 roll pitch yaw.
Proof.
  intros Hsmall. rewrite (rpy_of_raw_quaternion either_sign), R_set_rpy.
  now apply raw_read_back.
Qed.

(** C7.  Provided the absent conversions meet three conditions (the
    quaternion of the rotation made of a roll, a pitch and a yaw of at most
    one radian converts back to these three angles; a quaternion and its
    opposite convert to the same angles; zero angles make the identity
    rotation): for a body at the identity transform, after [set_roll(0.1)]
    and then [set_pitch(0.2)] the roll accessor reads 0.1, the pitch 0.2 and
    the yaw 0.  In every state, [set_pitch] reads the roll and the yaw the
    body has, whatever they are, and stores the rotation of these two and of
    the new pitch, so that roll and yaw read as before and the pitch reads
    the new value, the position being kept; and likewise [set_roll] keeps
    the pitch and the yaw, and [set_yaw] the roll and the pitch. *)
Theorem set_roll_then_set_pitch_keeps_roll
  (raw_read_back :
     forall roll pitch yaw,
       small_rpy roll pitch yaw ->
       rpy_from_quat
         (quatFromRotationMatrix (rotation_matrix_from_rpy roll pitch yaw))
       = V3 roll pitch yaw)
  (either_sign : forall q, rpy_from_quat (Np.neg4 q) = rpy_from_quat q)
  (zero_angles : rotation_matrix_from_rpy 0 0 0 = Np.eye3)
  (env : Env) (self : Body) :
  (let env0 := Body.set_transform self Np.eye4 env in
   let env1 := Body.set_roll self (Num.dec 0.1) env0 in
   let env2 := Body.set_pitch self (Num.dec 0.2) env1 in
   Body.roll env2 self = Num.dec 0.1
   /\ Body.pitch env2 self = Num.dec 0.2
   /\ Body.yaw env2 self = 0)
  /\ (forall roll0 pitch0 yaw0 pitch,
         Body.rpy env self = V3 roll0 pitch0 yaw0 ->
         small_rpy roll0 pitch yaw0 ->
         let env' := Body.set_pitch self pitch env in
         Body.rpy env' self = V3 roll0 pitch yaw0
         /\ Body.R env' self = rotation_matrix_from_rpy roll0 pitch yaw0
         /\ Body.p env' self = Body.p env self)
  /\ (forall roll0 pitch0 yaw0 roll,
         Body.rpy env self = V3 roll0 pitch0 yaw0 ->
         small_rpy roll pitch0 yaw0 ->
         let env' := Body.set_roll self roll env in
         Body.rpy env' self = V3 roll pitch0 yaw0
         /\ Body.R env' self = rotation_matrix_from_rpy roll pitch0 yaw0
         /\ Body.p env' self = Body.p env self)
  /\ (forall roll0 pitch0 yaw0 yaw,
         Body.rpy env self = V3 roll0 pitch0 yaw0 ->
         small_rpy roll0 pitch0 yaw ->
         let env' := Body.set_yaw self yaw env in
         Body.rpy env' self = V3 roll0 pitch0 yaw
         /\ Body.R env' self = rotation_matrix_from_rpy roll0 pitch0 yaw
         /\ Body.p env' self = Body.p env self).
Proof.
  pose proof (rpy_after_set_rpy raw_read_back either_sign self) as Hset.
  split; [| split; [| split]].
  - cbv zeta. destruct small_rpy_tenths as [Hroll Hboth].
    set (env0 := Body.set_transform self Np.eye4 env).
    assert (H0 : Body.rpy env0 self = V3 0 0 0).
    { rewrite (rpy_of_raw_quaternion either_sign). unfold Body.R, env0.
      rewrite T_set_transform.
      change (Np.block33 Np.eye4) with Np.eye3. rewrite <- zero_angles.
      apply raw_read_back. unfold small_rpy.
      repeat split; vm_compute; discriminate. }
    set (env1 := Body.set_roll self (Num.dec 0.1) env0).
    assert (H1 : Body.rpy env1 self = V3 (Num.dec 0.1) 0 0).
    { unfold env1, Body.set_roll, Body.pitch, Body.yaw. rewrite H0.
      now apply Hset. }
    assert (H2 : Body.rpy (Body.set_pitch self (Num.dec 0.2) env1) self
                 = V3 (Num.dec 0.1) (Num.dec 0.2) 0).
    { unfold Body.set_pitch, Body.roll, Body.yaw. rewrite H1.
      now apply Hset. }
    unfold Body.roll, Body.pitch, Body.yaw. rewrite H2. repeat split.
  - intros roll0 pitch0 yaw0 pitch Hrpy Hsmall. cbv zeta.
    unfold Body.set_pitch, Body.roll, Body.yaw. rewrite Hrpy.
    cbn [v0 v1 v2]. rewrite R_set_rpy, p_set_rpy.
    split; [now apply Hset | split; reflexivity].
  - intros roll0 pitch0 yaw0 roll Hrpy Hsmall. cbv zeta.
    unfold Body.set_roll, Body.pitch, Body.yaw. rewrite Hrpy.
    cbn [v0 v1 v2]. rewrite R_set_rpy, p_set_rpy.
    split; [now apply Hset | split; reflexivity].
  - intros roll0 pitch0 yaw0 yaw Hrpy Hsmall. cbv zeta.
    unfold Body.set_yaw, Body.roll, Body.pitch. rewrite Hrpy.
    cbn [v0 v1 v2]. rewrite R_set_rpy, p_set_rpy.
    split; [now apply Hset | split; reflexivity].
Qed.

End RoundTrip.

(** ** The reference implementation *)

Module ReferenceFacts.

Import Reference.

(** *** Polynomial identities over the rationals *)

#[local] Instance Qc_ring_ops
  : @Ring_ops Qc 0 1 Qcplus Qcmult Qcminus Qcopp (@eq Qc) := {}.

Ltac ring_ops_unfold :=
  cbv beta delta [equality eq_notation addition add_notation multiplication
    mul_notation subtraction sub_notation opposite opp_notation zero
    zero_notation one one_notation Qc_ring_ops] in *.

#[local] Instance Qc_ring : Ring (Ro:=Qc_ring_ops).
Proof.
  split; ring_ops_unfold; try (intros; ring); try congruence.
  apply eq_equivalence.
Defined.

#[local] Instance Qc_cring : Cring (Rr:=Qc_ring).
Proof. intros a b. ring_ops_unfold. ring. Defined.

#[local] Instance Qc_domain : Integral_domain (Rcr:=Qc_cring).
Proof.
  split.
  - intros a b Hab. ring_ops_unfold.
    destruct (Qcmult_integral _ _ Hab); auto.
  - ring_ops_unfold. discriminate.
Defined.

Lemma leb_le (a b : Qc) : leb a b = true <-> a <= b.
Proof. unfold leb. rewrite negb_true_iff. apply NumFacts.ltb_ge. Qed.

Lemma leb_gt (a b : Qc) : leb a b = false <-> b < a.
Proof. unfold leb. rewrite negb_false_iff. apply NumFacts.ltb_lt. Qed.

Lemma four_times_positive (c : Qc) : 0 < c -> (two + two) * c <> 0.
Proof.
  intros Hc Hz. unfold two in Hz. revert Hc. qc_to_q. intros Hc. lra.
Qed.

Lemma diagonal_entry (n t m : Qc) :
  n <> 0 -> n - two * t = n * m -> 1 - two / n * t = m.
Proof.
  intros Hn H.
  assert (Hm : m = (n - two * t) / n) by (rewrite H; field; exact Hn).
  rewrite Hm. field. exact Hn.
Qed.

Lemma off_diagonal_entry (n t m : Qc) :
  n <> 0 -> two * t = n * m -> two / n * t = m.
Proof.
  intros Hn H.
  assert (Hm : m = two * t / n) by (rewrite H; field; exact Hn).
  rewrite Hm. field. exact Hn.
Qed.

(** *** Quaternions of either sign and of any norm *)

Lemma norm2_neg4 (q : vec4) : norm2 (Np.neg4 q) = norm2 q.
Proof. destruct q. unfold norm2, Np.neg4. cbn. ring. Qed.

Lemma norm2_scale4 (s : Qc) (q : vec4) :
  norm2 (scale4 s q) = s * s * norm2 q.
Proof. destruct q. unfold norm2, scale4. cbn. ring. Qed.

Lemma rotation_of_quat_neg4 (q : vec4) :
  rotation_of_quat (Np.neg4 q) = rotation_of_quat q.
Proof.
  unfold rotation_of_quat. rewrite norm2_neg4.
  destruct q. unfold Np.neg4. cbn [q0 q1 q2 q3].
  f_equal; ring.
Qed.

Lemma rotation_of_quat_scale4 (s : Qc) (q : vec4) :
  s <> 0 -> norm2 q <> 0 ->
  rotation_of_quat (scale4 s q) = rotation_of_quat q.
Proof.
  intros Hs Hn. unfold rotation_of_quat. rewrite norm2_scale4.
  revert Hn. generalize (norm2 q). intros n Hn.
  destruct q. unfold scale4. cbn [q0 q1 q2 q3].
  f_equal; field; auto.
Qed.

Lemma normalised_is_scaled (q : vec4) :
  exists s, s <> 0 /\ normalised q = scale4 s q.
Proof.
  assert (Hone : q = scale4 1 q).
  { destruct q. unfold scale4. cbn. f_equal; ring. }
  unfold normalised. destruct (sqrt_exact (norm2 q)) as [r |].
  - destruct (Qeq_bool (this r) 0) eqn:Hr.
    + exists 1. split; [discriminate | exact Hone].
    + exists (/ r). split; [| reflexivity].
      assert (Hr0 : r <> 0).
      { intros ->. discriminate Hr. }
      intros Hinv. pose proof (Qcmult_inv_r r Hr0) as Hmul.
      rewrite Hinv in Hmul. revert Hmul. rewrite Qcmult_0_r. discriminate.
  - exists 1. split; [discriminate | exact Hone].
Qed.

(** *** The conversions are inverse of each other on rotations *)

Section Rotation.

Variables a b c d e f g h k : Qc.

Hypothesis rotation : is_rotation (M3 a b c d e f g h k).

Lemma columns :
  (a * a + d * d + g * g = 1 /\ b * b + e * e + h * h = 1
   /\ c * c + f * f + k * k = 1)
  /\ (a * b + d * e + g * h = 0 /\ a * c + d * f + g * k = 0
      /\ b * c + e * f + h * k = 0)
  /\ a * (e * k - f * h) - b * (d * k - f * g) + c * (d * h - e * g) = 1.
Proof.
  destruct rotation as [Horth Hdet].
  pose proof (f_equal m00 Horth) as H00.
  pose proof (f_equal m11 Horth) as H11.
  pose proof (f_equal m22 Horth) as H22.
  pose proof (f_equal m01 Horth) as H01.
  pose proof (f_equal m02 Horth) as H02.
  pose proof (f_equal m12 Horth) as H12.
  repeat split; assumption.
Qed.

Ltac rotation_nsatz :=
  destruct columns as [[N0 [N1 N2]] [[O01 [O02 O12]] D]];
  unfold norm2, two; cbn [q0 q1 q2 q3];
  clear rotation; nsatz.

(** The four candidates for the largest component: four times its square. *)
Let pivot0 := 1 + (a + e + k).
Let pivot1 := 1 + a - e - k.
Let pivot2 := 1 - a + e - k.
Let pivot3 := 1 - a - e + k.

Let direction0 := Quat (1 + (a + e + k)) (h - f) (c - g) (d - b).
Let direction1 := Quat (h - f) (1 + a - e - k) (b + d) (c + g).
Let direction2 := Quat (c - g) (b + d) (1 - a + e - k) (f + h).
Let direction3 := Quat (d - b) (c + g) (f + h) (1 - a - e + k).

Lemma norm2_direction0 : norm2 direction0 = (two + two) * pivot0.
Proof. subst direction0 pivot0. rotation_nsatz. Qed.

Lemma norm2_direction1 : norm2 direction1 = (two + two) * pivot1.
Proof. subst direction1 pivot1. rotation_nsatz. Qed.

Lemma norm2_direction2 : norm2 direction2 = (two + two) * pivot2.
Proof. subst direction2 pivot2. rotation_nsatz. Qed.

Lemma norm2_direction3 : norm2 direction3 = (two + two) * pivot3.
Proof. subst direction3 pivot3. rotation_nsatz. Qed.

Ltac entries :=
  unfold rotation_of_quat; cbn [q0 q1 q2 q3];
  f_equal;
  first [ apply diagonal_entry | apply off_diagonal_entry ];
  try assumption;
  rotation_nsatz.

Lemma matrix_of_direction0 :
  norm2 direction0 <> 0 ->
  rotation_of_quat direction0 = M3 a b c d e f g h k.
Proof. intros Hn. subst direction0. entries. Qed.

Lemma matrix_of_direction1 :
  norm2 direction1 <> 0 ->
  rotation_of_quat direction1 = M3 a b c d e f g h k.
Proof. intros Hn. subst direction1. entries. Qed.

Lemma matrix_of_direction2 :
  norm2 direction2 <> 0 ->
  rotation_of_quat direction2 = M3 a b c d e f g h k.
Proof. intros Hn. subst direction2. entries. Qed.

Lemma matrix_of_direction3 :
  norm2 direction3 <> 0 ->
  rotation_of_quat direction3 = M3 a b c d e f g h k.
Proof. intros Hn. subst direction3. entries. Qed.

End Rotation.

Lemma quat_direction_inverse (M : mat3) :
  is_rotation M ->
  norm2 (quat_direction M) <> 0
  /\ rotation_of_quat (quat_direction M) = M.
Proof.
  destruct M as [a b c d e f g h k]. intros Hrot.
  unfold quat_direction. cbn [m00 m01 m02 m10 m11 m12 m20 m21 m22].
  destruct (leb 0 (a + e + k)) eqn:B0;
    [| destruct (leb e a && leb k a) eqn:B1; [| destruct (leb k e) eqn:B2]].
  - apply leb_le in B0.
    assert (Hn : norm2 (Quat (1 + (a + e + k)) (h - f) (c - g) (d - b)) <> 0).
    { rewrite (norm2_direction0 a b c d e f g h k Hrot).
      apply four_times_positive. clear Hrot. qc_lra. }
    split; [exact Hn | now apply matrix_of_direction0].
  - apply leb_gt in B0. apply andb_true_iff in B1 as [B1 B1'].
    apply leb_le in B1, B1'.
    assert (Hn : norm2 (Quat (h - f) (1 + a - e - k) (b + d) (c + g)) <> 0).
    { rewrite (norm2_direction1 a b c d e f g h k Hrot).
      apply four_times_positive. clear Hrot. qc_lra. }
    split; [exact Hn | now apply matrix_of_direction1].
  - apply leb_gt in B0. apply leb_le in B2.
    assert (Hmax : a < e).
    { apply andb_false_iff in B1 as [B1 | B1]; apply leb_gt in B1.
      - exact B1.
      - clear Hrot B0. qc_lra. }
    assert (Hn : norm2 (Quat (c - g) (b + d) (1 - a + e - k) (f + h)) <> 0).
    { rewrite (norm2_direction2 a b c d e f g h k Hrot).
      apply four_times_positive. clear Hrot B1. qc_lra. }
    split; [exact Hn | now apply matrix_of_direction2].
  - apply leb_gt in B0. apply leb_gt in B2.
    assert (Hmax : a < k).
    { apply andb_false_iff in B1 as [B1 | B1]; apply leb_gt in B1.
      - clear Hrot B0. qc_lra.
      - exact B1. }
    assert (Hn : norm2 (Quat (d - b) (c + g) (f + h) (1 - a - e + k)) <> 0).
    { rewrite (norm2_direction3 a b c d e f g h k Hrot).
      apply four_times_positive. clear Hrot B1. qc_lra. }
    split; [exact Hn | now apply matrix_of_direction3].
Qed.

(** The reference conversions meet what the round trip asks of the engine. *)
Lemma reference_conversions_inverse (M : mat3) :
  is_rotation M ->
  rotationMatrixFromQuat (quatFromRotationMatrix M) = M.
Proof.
  intros Hrot. cbn. unfold quat_of_rotation.
  destruct (quat_direction_inverse M Hrot) as [Hn Hinv].
  destruct (normalised_is_scaled (quat_direction M)) as (s & Hs & ->).
  now rewrite rotation_of_quat_scale4.
Qed.

Lemma reference_either_sign (q : vec4) :
  rotationMatrixFromQuat (Np.neg4 q) = rotationMatrixFromQuat q.
Proof. apply rotation_of_quat_neg4. Qed.

(** *** First-order roll, pitch and yaw *)

Lemma rpy_of_quat_scale4 (s : Qc) (q : vec4) :
  s <> 0 -> q0 q <> 0 -> rpy_of_quat (scale4 s q) = rpy_of_quat q.
Proof.
  intros Hs Hq. destruct q as [w x y z]. unfold rpy_of_quat, scale4.
  cbn [q0 q1 q2 q3] in *. f_equal; field; auto.
Qed.

Lemma rpy_of_quat_neg4 (q : vec4) :
  q0 q <> 0 -> rpy_of_quat (Np.neg4 q) = rpy_of_quat q.
Proof.
  intros Hq. destruct q as [w x y z]. unfold rpy_of_quat, Np.neg4.
  cbn [q0 q1 q2 q3] in *. f_equal; field; (split; [exact Hq | discriminate]).
Qed.

Lemma reference_angles_read_back (roll pitch yaw : Qc) :
  rpy_of_rotation (rotation_matrix_from_rpy roll pitch yaw)
  = V3 roll pitch yaw.
Proof.
  unfold rpy_of_rotation. cbn [quatFromRotationMatrix rotation_matrix_from_rpy
    rpy_from_quat external].
  unfold quat_of_rotation.
  set (q := quat_direction (rotation_of_rpy roll pitch yaw)).
  assert (Hq : q = Quat (two + two) (two * roll) (two * pitch) (two * yaw)).
  { unfold q, quat_direction, rotation_of_rpy, Np.madd, skew, Np.eye3.
    cbn [m00 m01 m02 m10 m11 m12 m20 m21 m22 v0 v1 v2].
    replace (leb 0 (1 + 0 + (1 + 0) + (1 + 0))) with true
      by (symmetry; apply leb_le; vm_compute; discriminate).
    unfold two. f_equal; ring. }
  assert (Hfour : two + two <> 0) by (vm_compute; discriminate).
  assert (Hread : rpy_of_quat q = V3 roll pitch yaw).
  { rewrite Hq. unfold rpy_of_quat. cbn [q0 q1 q2 q3].
    unfold two. f_equal; field; discriminate. }
  destruct (normalised_is_scaled q) as (s & Hs & ->).
  assert (Hq0 : q0 q <> 0) by (rewrite Hq; exact Hfour).
  assert (Hsq0 : q0 (scale4 s q) <> 0).
  { unfold scale4. cbn [q0]. intros Hz.
    destruct (Qcmult_integral _ _ Hz); contradiction. }
  destruct (_ <? _).
  - rewrite rpy_of_quat_neg4 by exact Hsq0.
    now rewrite rpy_of_quat_scale4.
  - now rewrite rpy_of_quat_scale4.
Qed.

Lemma reference_identity_reads_zero : rpy_of_rotation Np.eye3 = V3 0 0 0.
Proof. qc_eval. Qed.

(** The first-order angles of a quaternion and of its opposite are the same,
    also when the scalar part is zero: the quotient by zero is zero on both
    sides. *)
Lemma reference_rpy_either_sign (q : vec4) :
  rpy_from_quat (Np.neg4 q) = rpy_from_quat q.
Proof.
  cbn [rpy_from_quat external].
  destruct (Qc_eq_dec (q0 q) 0) as [Hz | Hq]; [| now apply rpy_of_quat_neg4].
  destruct q as [w x y z]. cbn [q0] in Hz. subst w.
  unfold rpy_of_quat, Np.neg4, Qcdiv. cbn [q0 q1 q2 q3].
  assert (Hinv : / 0 = 0) by qc_eval.
  assert (Hopp : 0 * - (1) = 0) by ring.
  rewrite Hopp, Hinv. f_equal; ring.
Qed.

(** The raw conversions, without the sign convention of the pose accessor. *)
Lemma reference_raw_read_back (roll pitch yaw : Qc) :
  rpy_from_quat
    (quatFromRotationMatrix (rotation_matrix_from_rpy roll pitch yaw))
  = V3 roll pitch yaw.
Proof.
  pose proof (reference_angles_read_back roll pitch yaw) as H.
  unfold rpy_of_rotation in H.
  destruct (_ <? _) in H; [rewrite reference_rpy_either_sign in H |]; exact H.
Qed.

Lemma reference_zero_angles : rotation_matrix_from_rpy 0 0 0 = Np.eye3.
Proof. qc_eval. Qed.

Example yawed_angles :
  Body.rpy (Body.set_rpy link0 (V3 (Num.dec 0.1) 0 (Num.dec 0.5)) env0) link0
  = V3 (Num.dec 0.1) 0 (Num.dec 0.5).
Proof. qc_eval. Qed.

Example turn_y_raw_pose :
  GetTransformPose (Body.set_transform link0 turn_y env0) (rave link0)
  = Pose (Quat (- Q2Qc (5 # 13)) 0 (Q2Qc (12 # 13)) 0) (V3 1 two (two + 1)).
Proof. qc_eval. Qed.

Example identity_pose :
  Body.pose env0 link0 = Pose (Quat 1 0 0 0) (V3 0 0 0).
Proof. qc_eval. Qed.

(** *** The properties above, on the reference implementation *)

(** The round trip of C6 on a transform whose raw quaternion has a negative
    scalar part, so that the pose accessor negates it. *)
Lemma pose_then_set_pose_restores_transform_witness :
  let env := Body.set_transform link0 turn_y env0 in
  q0 (pose_quat (GetTransformPose env (rave link0))) < 0
  /\ Body.T (Body.set_pose link0 (Body.pose env link0) env) link0
     = Body.T env link0.
Proof.
  cbv zeta. split.
  - vm_compute. reflexivity.
  - apply (pose_then_set_pose_restores_transform
             reference_conversions_inverse reference_either_sign
             (Body.set_transform link0 turn_y env0) link0).
    rewrite T_set_transform. unfold is_rigid, is_rotation.
    repeat split; qc_eval.
Defined.

(** C7 with the first-order conversions: the scenario from the identity
    transform, and [set_pitch] on a body whose yaw is not zero. *)
Lemma set_roll_then_set_pitch_keeps_roll_witness :
  let env := Body.set_rpy link0 (V3 (Num.dec 0.1) 0 (Num.dec 0.5)) env0 in
  Body.roll
    (Body.set_pitch link0 (Num.dec 0.2)
       (Body.set_roll link0 (Num.dec 0.1)
          (Body.set_transform link0 Np.eye4 env0)))
    link0
  = Num.dec 0.1
  /\ Body.rpy (Body.set_pitch link0 (Num.dec 0.2) env) link0
     = V3 (Num.dec 0.1) (Num.dec 0.2) (Num.dec 0.5).
Proof.
  cbv zeta.
  pose proof (set_roll_then_set_pitch_keeps_roll
                (fun roll pitch yaw _ => reference_raw_read_back roll pitch yaw)
                reference_rpy_either_sign reference_zero_angles) as H.
  split.
  - apply (H env0 link0).
  - destruct (H (Body.set_rpy link0 (V3 (Num.dec 0.1) 0 (Num.dec 0.5)) env0)
                link0) as (_ & Hpitch & _).
    apply (Hpitch (Num.dec 0.1) 0 (Num.dec 0.5) (Num.dec 0.2) yawed_angles).
    unfold small_rpy. repeat split; vm_compute; discriminate.
Defined.

(** C1: a target with the scalar part [-1] against a link with the scalar
    part [1].  The test fires for the target and not for its opposite, and
    both residuals have a zero orientation block. *)
Lemma link_pose_residual_double_cover_witness :
  let P := Pose (Quat (- (1)) 0 0 0) (V3 1 two (two + 1)) in
  exists task task',
    LinkPoseTask.init link0 (PyArray (Np.of_pose P)) None None None = Ok task
    /\ LinkPoseTask.init link0 (PyArray (Np.of_pose (negated_quaternion P)))
         None None None = Ok task'
    /\ pos_residual task env0 = pos_residual task' env0
    /\ pos_residual task env0 = Ok [0; 0; 0; 0; 1; two; two + 1].
Proof.
  cbv zeta. eexists. eexists.
  split; [reflexivity |]. split; [reflexivity |]. split.
  - pose proof (link_pose_residual_double_cover None None None link0 env0)
      as Hres.
    cbv zeta in Hres. destruct Hres as (_ & _ & _ & Hsign & _).
    apply (Hsign (Pose (Quat (- (1)) 0 0 0) (V3 1 two (two + 1))));
      reflexivity.
  - qc_eval.
Defined.

(** C2 on a transform whose raw quaternion has the scalar part [-5/13]: the
    accessor returns the opposite quaternion and the same translation. *)
Lemma pose_scalar_part_nonnegative_witness :
  let env := Body.set_transform link0 turn_y env0 in
  q0 (pose_quat (GetTransformPose env (rave link0))) < 0
  /\ pose_quat (Body.pose env link0)
     = Quat (Q2Qc (5 # 13)) 0 (- Q2Qc (12 # 13)) 0
  /\ pose_trans (Body.pose env link0) = V3 1 two (two + 1).
Proof.
  cbv zeta.
  pose proof (pose_scalar_part_nonnegative
                (Body.set_transform link0 turn_y env0) link0) as Hpose.
  cbv zeta in Hpose. destruct Hpose as (_ & Hneg & _ & Htrans).
  assert (Hraw : q0 (pose_quat (GetTransformPose
                                  (Body.set_transform link0 turn_y env0)
                                  (rave link0))) < 0)
    by (vm_compute; reflexivity).
  split; [exact Hraw |]. split.
  - rewrite (Hneg Hraw). qc_eval.
  - rewrite Htrans. qc_eval.
Defined.

(** C9 with a body as the target: the residual follows both bodies. *)
Lemma link_pos_residual_is_difference_witness :
  let env := Body.set_pos body1 (V3 1 two (two + 1)) env0 in
  exists task,
    LinkPosTask.init link0 (PyBody body1) None None None = Ok task
    /\ pos_residual task env = Ok [1; two; two + 1]
    /\ pos_residual task (Body.set_pos link0 (V3 1 1 1) env) = Ok [0; 1; two].
Proof.
  cbv zeta. eexists. split; [reflexivity |].
  pose proof (link_pos_residual_is_difference None None None link0)
    as [Hres _].
  split.
  - rewrite (Hres (PyBody body1) _ eq_refl _ _ eq_refl). qc_eval.
  - rewrite (Hres (PyBody body1) _ eq_refl _ _ eq_refl). qc_eval.
Defined.

(** C8 on arrays of five components and of one: both tasks are constructed;
    the residual of the first raises, the one of the second is broadcast. *)
Lemma construction_checks_the_type_only_witness :
  exists task task',
    LinkPosTask.init link0 (PyArray [1; 1; 1; 1; 1]) None None None = Ok task
    /\ LinkPosTask.init link0 (PyArray [two]) None None None = Ok task'
    /\ is_ok (pos_residual task env0) = false
    /\ is_ok (pos_residual task' env0) = true.
Proof.
  eexists. eexists. split; [reflexivity |]. split; [reflexivity |].
  split.
  - pose proof (construction_checks_the_type_only None None None link0
                  (PyArray [1; 1; 1; 1; 1])) as (_ & _ & Hlen & _).
    exact (Hlen 5%nat _ env0 eq_refl eq_refl).
  - pose proof (construction_checks_the_type_only None None None link0
                  (PyArray [two])) as (_ & _ & Hlen & _).
    exact (Hlen 1%nat _ env0 eq_refl eq_refl).
Defined.

(** C1, as stated, fails for two unit quaternions at a right angle: the link
    at the identity, with the quaternion [(1, 0, 0, 0)], and the target
    quaternion [(0, 1, 0, 0)].  The test fires for the target and for its
    opposite, and the two residuals differ. *)
Lemma link_pose_residual_sign_counterexample :
  let P := Pose (Quat 0 1 0 0) (V3 0 0 0) in
  Body.pose env0 link0 = Pose (Quat 1 0 0 0) (V3 0 0 0)
  /\ exists task task',
       LinkPoseTask.init link0 (PyArray (Np.of_pose P)) None None None
       = Ok task
       /\ LinkPoseTask.init link0
            (PyArray (Np.of_pose (negated_quaternion P))) None None None
          = Ok task'
       /\ pos_residual task env0 = Ok [- (1); - (1); 0; 0; 0; 0; 0]
       /\ pos_residual task' env0 = Ok [- (1); 1; 0; 0; 0; 0; 0]
       /\ pos_residual task env0 <> pos_residual task' env0.
Proof.
  cbv zeta. split; [qc_eval |].
  destruct (pose_task_array None None None link0
              (Np.of_pose (Pose (Quat 0 1 0 0) (V3 0 0 0))))
    as (task & Htask & _ & Hres).
  destruct (pose_task_array None None None link0
              (Np.of_pose
                 (negated_quaternion (Pose (Quat 0 1 0 0) (V3 0 0 0)))))
    as (task' & Htask' & _ & Hres').
  exists task, task'. rewrite Hres, Hres'.
  assert (H1 : LinkPoseTask.residual_of
                 (Np.of_pose (Pose (Quat 0 1 0 0) (V3 0 0 0)))
                 (Np.of_pose (Body.pose env0 link0))
               = Ok [- (1); - (1); 0; 0; 0; 0; 0]) by qc_eval.
  assert (H2 : LinkPoseTask.residual_of
                 (Np.of_pose
                    (negated_quaternion (Pose (Quat 0 1 0 0) (V3 0 0 0))))
                 (Np.of_pose (Body.pose env0 link0))
               = Ok [- (1); 1; 0; 0; 0; 0; 0]) by qc_eval.
  rewrite H1, H2. repeat split; try assumption. intros Heq.
  apply (f_equal (fun r => match r with
                           | Ok (_ :: x :: _) => this x
                           | _ => 0%Q
                           end)) in Heq.
  vm_compute in Heq. discriminate Heq.
Qed.

(** C8, as stated, fails for an array of five components: it neither
    provides the attribute nor has three components, its task is
    constructed all the same, and the mismatch raises when the residual is
    evaluated. *)
Lemma construction_accepts_any_length_counterexample :
  let target := PyArray [1; 1; 1; 1; 1] in
  specified_target 3 "p" target = false
  /\ exists task,
       LinkPosTask.init link0 target None None None = Ok task
       /\ pos_residual task env0 = Raise shape_error.
Proof.
  cbv zeta. split; [reflexivity |].
  eexists. split; reflexivity.
Qed.

(** C9, as stated for every task whose construction succeeds, fails for an
    array of five components: the task is constructed, the target has no
    position, and the state has no residual at all, the subtraction of the
    link's three coordinates raising at each evaluation. *)
Lemma link_pos_residual_without_position_counterexample :
  let target := PyArray [1; 1; 1; 1; 1] in
  exists task,
    LinkPosTask.init link0 target None None None = Ok task
    /\ target_position env0 target = None
    /\ forall r, pos_residual task env0 <> Ok r.
Proof.
  cbv zeta. eexists. split; [reflexivity |]. split; [reflexivity |].
  intros r Hr. vm_compute in Hr. discriminate Hr.
Qed.

End ReferenceFacts.

(** * Further properties of body.py *)

(** ** How the mutators compose *)

(** Unfold a sequence of mutators of [self] at the body [k]. *)
Ltac store_at self k :=
  unfold Body.set_x, Body.set_y, Body.set_z, Body.set_pos,
    Body.set_rotation_matrix, Body.set_rpy, Body.set_pose,
    Body.set_transform, Body.x, Body.y, Body.z, Body.p, Body.R, Body.T,
    SetTransform, GetTransform;
  destruct (Nat.eqb_spec k (rave self)) as [-> | ?];
  rewrite ?Nat.eqb_refl; try reflexivity.

Section MutatorAlgebra.

Context {ext : External}.

(** X1.  The three coordinate mutators commute with one another, and the
    three of them together, in any order, do what [set_pos] does with the
    three values. *)
Theorem coordinate_mutators_compose (self : Body) (a b c : Qc) (env : Env) :
  same_env (Body.set_y self b (Body.set_x self a env))
           (Body.set_x self a (Body.set_y self b env))
  /\ same_env (Body.set_z self c (Body.set_x self a env))
              (Body.set_x self a (Body.set_z self c env))
  /\ same_env (Body.set_z self c (Body.set_y self b env))
              (Body.set_y self b (Body.set_z self c env))
  /\ same_env (Body.set_z self c (Body.set_y self b (Body.set_x self a env)))
              (Body.set_pos self (V3 a b c) env)
  /\ same_env (Body.set_x self a (Body.set_y self b (Body.set_z self c env)))
              (Body.set_pos self (V3 a b c) env).
Proof. repeat split; intros k; store_at self k. Qed.

(** X2.  Writing back what was just read changes nothing: the whole
    transform, the position, the rotation block or one coordinate. *)
Theorem write_back_changes_nothing (self : Body) (env : Env) :
  same_env (Body.set_transform self (Body.T env self) env) env
  /\ same_env (Body.set_pos self (Body.p env self) env) env
  /\ same_env (Body.set_rotation_matrix self (Body.R env self) env) env
  /\ same_env (Body.set_x self (Body.x env self) env) env
  /\ same_env (Body.set_y self (Body.y env self) env) env
  /\ same_env (Body.set_z self (Body.z env self) env) env.
Proof.
  repeat split; intros k; store_at self k;
    now destruct (env (rave self)).
Qed.

(** X3.  The last write wins: a second [set_pos], [set_rotation_matrix] or
    [set_x] makes the first one of the same kind unobservable, and
    [set_pose] and [set_transform], which replace the whole transform, give
    the same environment from any two environments that differ in the
    transform of the body only. *)
Theorem last_write_wins (self : Body) (env : Env)
  (a a' : Qc) (pos pos' : vec3) (A A' : mat3) (P : pose7) (M : mat4) :
  same_env (Body.set_pos self pos' (Body.set_pos self pos env))
           (Body.set_pos self pos' env)
  /\ same_env (Body.set_rotation_matrix self A'
                 (Body.set_rotation_matrix self A env))
              (Body.set_rotation_matrix self A' env)
  /\ same_env (Body.set_x self a' (Body.set_x self a env))
              (Body.set_x self a' env)
  /\ (forall env',
         (forall k, k <> rave self -> env' k = env k) ->
         same_env (Body.set_pose self P env') (Body.set_pose self P env)
         /\ same_env (Body.set_transform self M env')
                     (Body.set_transform self M env)).
Proof.
  repeat split; try (intros k; store_at self k); auto.
Qed.

(** X4.  Position and orientation are independent: [set_pos] commutes with
    [set_rotation_matrix] and with [set_rpy], and the two together fix the
    first three rows of the transform whatever it was. *)
Theorem position_and_orientation_commute (self : Body) (env : Env)
  (pos angles : vec3) (A : mat3) :
  same_env (Body.set_rotation_matrix self A (Body.set_pos self pos env))
           (Body.set_pos self pos (Body.set_rotation_matrix self A env))
  /\ same_env (Body.set_rpy self angles (Body.set_pos self pos env))
              (Body.set_pos self pos (Body.set_rpy self angles env))
  /\ Body.T (Body.set_rotation_matrix self A (Body.set_pos self pos env)) self
     = Np.set_block33 (Np.set_col3 (Body.T env self) pos) A.
Proof.
  repeat split; try (intros k; store_at self k).
  unfold Body.set_rotation_matrix. rewrite T_set_transform.
  unfold Body.set_pos. now rewrite T_set_transform.
Qed.

(** X24.  [set_quat] is [set_pose] of the current pose with its quaternion
    replaced: it stores the rotation block of the quaternion, keeps the
    position, and, like [set_pose] and unlike the other mutators, writes the
    last row [0 0 0 1] whatever row the transform had. *)
Theorem set_quat_is_set_pose (self : Body) (q : vec4) (P : pose7)
  (env : Env) :
  same_env (Body.set_quat self q env)
           (Body.set_pose self (Pose q (Body.p env self)) env)
  /\ Body.R (Body.set_quat self q env) self = rotationMatrixFromQuat q
  /\ Body.p (Body.set_quat self q env) self = Body.p env self
  /\ Np.row3 (Body.T (Body.set_quat self q env) self) = (0, 0, 0, 1)
  /\ Np.row3 (Body.T (Body.set_pose self P env) self) = (0, 0, 0, 1).
Proof.
  unfold Body.set_quat. rewrite pose_trans_pose.
  split; [intros k; reflexivity |].
  unfold Body.set_pose, Body.R. rewrite !T_set_transform.
  split; [apply block33_matrixFromPose |].
  split; [| split; reflexivity].
  unfold Body.p at 1. rewrite T_set_transform. apply col3_matrixFromPose.
Qed.

End MutatorAlgebra.

(** ** Bodies apart *)

Section OtherBodies.

Context {ext : External}.

(** X5.  A mutation of one body, whichever the mutator, a twist included,
    leaves the transform of every body that wraps another [KinBody] as it
    was. *)
Theorem other_bodies_are_untouched (self other : Body) (env : Env)
  (a dt : Qc) (v w : vec3) (A : mat3) (q : vec4) (P : pose7) (M : mat4) :
  rave other <> rave self ->
  forall mutate,
    In mutate [Body.set_transform self M; Body.set_pos self v;
               Body.set_rotation_matrix self A; Body.set_x self a;
               Body.set_y self a; Body.set_z self a; Body.set_rpy self v;
               Body.set_roll self a; Body.set_pitch self a;
               Body.set_yaw self a; Body.set_pose self P;
               Body.set_quat self q; Body.apply_twist self v w dt] ->
    Body.T (mutate env) other = Body.T env other
    /\ Body.pose (mutate env) other = Body.pose env other.
Proof.
  intros Hne mutate Hin.
  assert (HT : Body.T (mutate env) other = Body.T env other).
  { cbn [In] in Hin.
    repeat (destruct Hin as [<- | Hin]);
      try contradiction;
      unfold Body.apply_twist, Body.set_roll, Body.set_pitch, Body.set_yaw,
        Body.set_x, Body.set_y, Body.set_z, Body.set_pos,
        Body.set_rotation_matrix, Body.set_rpy, Body.set_quat, Body.set_pose;
      rewrite ?T_set_transform_other by assumption; reflexivity. }
  split; [exact HT |].
  unfold Body.pose, GetTransformPose. fold (Body.T (mutate env) other).
  fold (Body.T env other). now rewrite HT.
Qed.

End OtherBodies.

(** ** Roll, pitch and yaw, one at a time *)

Section AngleMutators.

Context {ext : External}.

Definition within_one (a : Qc) : Prop := - (1) <= a /\ a <= 1.

(** X6.  Provided roll, pitch and yaw of at most one radian are read back
    from the rotation made of them: setting the roll, then the pitch, then
    the yaw of a body whose pitch and yaw read at most one radian, to a roll
    and a pitch of at most one radian and to any yaw, does what [set_rpy]
    does with the three angles. *)
Theorem angle_mutators_compose_to_set_rpy
  (angles_read_back :
     forall roll pitch yaw,
       small_rpy roll pitch yaw ->
       rpy_of_rotation (rotation_matrix_from_rpy roll pitch yaw)
       = V3 roll pitch yaw)
  (self : Body) (env : Env) (roll pitch yaw : Qc) :
  within_one roll -> within_one pitch ->
  within_one (Body.pitch env self) -> within_one (Body.yaw env self) ->
  same_env
    (Body.set_yaw self yaw
       (Body.set_pitch self pitch (Body.set_roll self roll env)))
    (Body.set_rpy self (V3 roll pitch yaw) env).
Proof.
  intros Hr Hp Hp0 Hy0.
  set (env1 := Body.set_roll self roll env).
  assert (H1 : Body.rpy env1 self
               = V3 roll (Body.pitch env self) (Body.yaw env self)).
  { unfold env1, Body.set_roll. rewrite rpy_set_rpy. cbn [v0 v1 v2].
    apply angles_read_back. unfold small_rpy, within_one in *. tauto. }
  set (env2 := Body.set_pitch self pitch env1).
  assert (H2 : Body.rpy env2 self = V3 roll pitch (Body.yaw env self)).
  { unfold env2, Body.set_pitch, Body.roll, Body.yaw at 1. rewrite H1.
    rewrite rpy_set_rpy. cbn [v0 v1 v2].
    apply angles_read_back. unfold small_rpy, within_one in *. tauto. }
  unfold Body.set_yaw, Body.roll, Body.pitch at 1. rewrite H2. cbn [v0 v1 v2].
  intros k. unfold env2, env1, Body.set_pitch, Body.set_roll.
  store_at self k.
Qed.

End AngleMutators.

(** ** The basis vectors and the determinant *)

Module FrameFacts.

#[local] Existing Instance ReferenceFacts.Qc_ring_ops.
#[local] Existing Instance ReferenceFacts.Qc_ring.
#[local] Existing Instance ReferenceFacts.Qc_cring.
#[local] Existing Instance ReferenceFacts.Qc_domain.

Lemma third_column_is_cross (a b c d e f g h k : Qc) :
  is_rotation (M3 a b c d e f g h k) ->
  Vec.cross3 (V3 a d g) (V3 b e h) = V3 c f k
  /\ Vec.cross3 (V3 b e h) (V3 c f k) = V3 a d g
  /\ Vec.cross3 (V3 c f k) (V3 a d g) = V3 b e h.
Proof.
  intros Hrot.
  destruct (ReferenceFacts.columns a b c d e f g h k Hrot)
    as [[N0 [N1 N2]] [[O01 [O02 O12]] D]].
  clear Hrot. unfold Vec.cross3. cbn [v0 v1 v2].
  repeat split; f_equal; nsatz.
Qed.

Section Frame.

Context {ext : External}.

(** X7.  For a body whose transform is a valid rigid transform, the
    tangent, binormal and normal vectors are unit vectors, orthogonal to one
    another, and right-handed: the normal is the cross product of the tangent
    and the binormal, and so on cyclically. *)
Theorem basis_is_right_handed_orthonormal (env : Env) (self : Body) :
  is_rigid (Body.T env self) ->
  let t := Body.t env self in
  let b := Body.b env self in
  let n := Body.n env self in
  (Vec.dot3 t t = 1 /\ Vec.dot3 b b = 1 /\ Vec.dot3 n n = 1)
  /\ (Vec.dot3 t b = 0 /\ Vec.dot3 t n = 0 /\ Vec.dot3 b n = 0)
  /\ (Vec.cross3 t b = n /\ Vec.cross3 b n = t /\ Vec.cross3 n t = b).
Proof.
  intros [Hrot _]. cbv zeta.
  unfold Body.t, Body.b, Body.n, Np.col0, Np.col1, Np.col2.
  unfold Np.block33 in Hrot. destruct (Body.T env self).
  cbn [t00 t01 t02 t10 t11 t12 t20 t21 t22] in *.
  pose proof (ReferenceFacts.columns _ _ _ _ _ _ _ _ _ Hrot)
    as [[N0 [N1 N2]] [[O01 [O02 O12]] D]].
  split; [| split].
  - unfold Vec.dot3. cbn [v0 v1 v2]. auto.
  - unfold Vec.dot3. cbn [v0 v1 v2]. auto.
  - now apply third_column_is_cross.
Qed.

Lemma square_zero (a : Qc) : a * a = 0 -> a = 0.
Proof. intros H. now destruct (Qcmult_integral _ _ H). Qed.

Lemma sum_of_squares_zero (a b c : Qc) :
  a * a + b * b + c * c = 0 -> a = 0 /\ b = 0 /\ c = 0.
Proof.
  intros H.
  assert (Hsq : forall x : Qc, 0 <= x * x).
  { intros x. qc_to_q. nra. }
  pose proof (Hsq a) as Ha. pose proof (Hsq b) as Hb. pose proof (Hsq c) as Hc.
  assert (Hzero : a * a = 0 /\ b * b = 0 /\ c * c = 0).
  { clear Hsq. repeat split; apply Qc_is_canon; qc_to_q; lra. }
  destruct Hzero as (Ha0 & Hb0 & Hc0).
  repeat split; now apply square_zero.
Qed.

Lemma twist_determinant (A : mat3) (w : vec3) (dt : Qc) :
  Np.det3 (Np.madd A (Np.mscale (Np.mdot (Reference.skew w) A) dt))
  = (1 + dt * dt * Vec.dot3 w w) * Np.det3 A.
Proof.
  destruct A, w. unfold Np.det3, Np.madd, Np.mscale, Np.mdot, Reference.skew,
    Vec.dot3.
  cbn [m00 m01 m02 m10 m11 m12 m20 m21 m22 v0 v1 v2]. ring.
Qed.

(** X8.  Provided [crossmat] is the matrix of the cross product: a twist
    multiplies the determinant of the rotation block by
    [1 + dt^2 (omega . omega)].  A rotation block that is a proper rotation
    is therefore one after the twist only when [dt] or [omega] is zero, in
    which case the block is unchanged. *)
Theorem twist_scales_the_determinant
  (crossmat_is_skew : forall w, crossmat w = Reference.skew w)
  (self : Body) (v omega : vec3) (dt : Qc) (env : Env) :
  let env' := Body.apply_twist self v omega dt env in
  Np.det3 (Body.R env' self)
  = (1 + dt * dt * Vec.dot3 omega omega) * Np.det3 (Body.R env self)
  /\ (is_rotation (Body.R env self) -> is_rotation (Body.R env' self) ->
      dt = 0 \/ omega = V3 0 0 0)
  /\ (dt = 0 \/ omega = V3 0 0 0 -> Body.R env' self = Body.R env self).
Proof.
  cbv zeta.
  assert (HR : Body.R (Body.apply_twist self v omega dt env) self
               = Np.madd (Body.R env self)
                   (Np.mscale (Np.mdot (Reference.skew omega) (Body.R env self))
                      dt)).
  { unfold Body.apply_twist.
    now rewrite R_set_rotation_matrix, R_set_pos, crossmat_is_skew. }
  rewrite HR. split; [apply twist_determinant | split].
  - intros [_ Hdet] [_ Hdet']. rewrite twist_determinant, Hdet in Hdet'.
    assert (Hprod : dt * dt * Vec.dot3 omega omega = 0).
    { apply Qc_is_canon. clear HR. qc_to_q. lra. }
    destruct (Qcmult_integral _ _ Hprod) as [Hdt | Hw].
    + left. now apply square_zero.
    + right. destruct omega as [x y z]. unfold Vec.dot3 in Hw.
      cbn [v0 v1 v2] in Hw.
      destruct (sum_of_squares_zero x y z Hw) as (-> & -> & ->). reflexivity.
  - intros [-> | ->]; destruct (Body.R env self);
      unfold Np.madd, Np.mscale, Np.mdot, Reference.skew;
      cbn [m00 m01 m02 m10 m11 m12 m20 m21 m22 v0 v1 v2]; f_equal; ring.
Qed.

End Frame.

End FrameFacts.

(** ** The integrator, step after step *)

Section IntegratorFacts.

Context {ext : External}.

Lemma dec_half : Num.dec 0.5 = / (1 + 1).
Proof. apply Qc_is_canon. reflexivity. Qed.

(** X9.  Under a constant acceleration the integrator is exact: two steps,
    of durations [dt1] and [dt2], leave the environment and the point as one
    step of duration [dt1 + dt2] does.  A step changes neither the rotation
    block nor the last row of the transform of the point. *)
Theorem integrate_acceleration_is_additive (self : Point) (a : vec3)
  (dt1 dt2 : Qc) (env : Env) :
  let (env1, self1) := Point.integrate_acceleration self a dt1 env in
  let (env2, self2) := Point.integrate_acceleration self1 a dt2 env1 in
  let (env', self') := Point.integrate_acceleration self a (dt1 + dt2) env in
  same_env env2 env'
  /\ self2 = self'
  /\ Body.R env1 (body self) = Body.R env (body self)
  /\ Np.row3 (Body.T env1 (body self)) = Np.row3 (Body.T env (body self)).
Proof.
  unfold Point.integrate_acceleration, Point.set_velocity, Point.pd.
  cbn [body __pd]. repeat split.
  - intros k. rewrite !NumFacts.sq_mul. store_at (body self) k.
    destruct (env (rave (body self))), a, (__pd self).
    unfold Np.set_col3, Np.add3, Np.scale3, Np.col3.
    cbn [v0 v1 v2 t00 t01 t02 t03 t10 t11 t12 t13 t20 t21 t22 t23 t30 t31
         t32 t33].
    rewrite dec_half. f_equal; field; discriminate.
  - destruct a, (__pd self). unfold Np.add3, Np.scale3. cbn [v0 v1 v2].
    do 2 f_equal; ring.
  - apply R_set_pos.
  - unfold Body.set_pos. now rewrite T_set_transform.
Qed.

(** X10.  A step of the integrator conserves the mechanical energy of the
    point in the uniform field of the acceleration: half the squared speed
    minus the dot product of the acceleration and the position is the same
    after the step as before, whatever the duration. *)
Theorem integrate_acceleration_conserves_energy (self : Point) (a : vec3)
  (dt : Qc) (env : Env) :
  let (env', self') := Point.integrate_acceleration self a dt env in
  specific_energy a env' self' = specific_energy a env self.
Proof.
  unfold Point.integrate_acceleration, specific_energy, Point.set_velocity,
    Point.pd.
  cbn [body __pd]. rewrite p_set_pos, NumFacts.sq_mul.
  destruct a, (__pd self), (Body.p env (body self)).
  unfold Vec.dot3, Np.add3, Np.scale3. cbn [v0 v1 v2].
  rewrite dec_half. field. discriminate.
Qed.

End IntegratorFacts.

(** * Further properties of tasks/link.py *)

Section ResidualFacts.

Context {ext : External}.

Variables (gain weight : option Qc) (exclude_dofs : option (list nat)).

Let pos_task (link : Body) (target : pyobj) : result Task :=
  LinkPosTask.init link target gain weight exclude_dofs.

Let pose_task (link : Body) (target : pyobj) : result Task :=
  LinkPoseTask.init link target gain weight exclude_dofs.

Lemma pos_residual_of_position (link : Body) (target : pyobj) (task : Task)
  (env : Env) (tp : vec3) :
  pos_task link target = Ok task ->
  target_position env target = Some tp ->
  pos_residual task env = Ok (Np.of_vec3 (Np.sub3 tp (Body.p env link))).
Proof.
  intros Hinit Htp.
  destruct target as [items | a | items | tb |]; try discriminate Htp.
  - destruct items as [| a [| b [| c [| d items]]]]; try discriminate Htp.
    injection Htp as <-. injection Hinit as <-. reflexivity.
  - destruct a as [| a [| b [| c [| d items]]]]; try discriminate Htp.
    injection Htp as <-. injection Hinit as <-. reflexivity.
  - injection Htp as <-. injection Hinit as <-. reflexivity.
Qed.

Lemma ok_inj {A : Type} (a b : A) : Ok a = Ok b -> a = b.
Proof.
  intros H.
  exact (f_equal (fun r => match r with Ok c => c | Raise _ => a end) H).
Qed.

Lemma sub3_zero (a b : vec3) :
  Np.of_vec3 (Np.sub3 a b) = [0; 0; 0] <-> b = a.
Proof.
  destruct a as [a0 a1 a2], b as [b0 b1 b2]. unfold Np.of_vec3, Np.sub3.
  cbn [v0 v1 v2]. split.
  - intros H.
    assert (H0 : a0 - b0 = 0) by (apply (f_equal (fun l => nth 0 l 0)) in H; exact H).
    assert (H1 : a1 - b1 = 0) by (apply (f_equal (fun l => nth 1 l 0)) in H; exact H).
    assert (H2 : a2 - b2 = 0) by (apply (f_equal (fun l => nth 2 l 0)) in H; exact H).
    f_equal.
    + rewrite <- (Qcplus_0_l b0), <- H0. ring.
    + rewrite <- (Qcplus_0_l b1), <- H1. ring.
    + rewrite <- (Qcplus_0_l b2), <- H2. ring.
  - intros [= -> -> ->]. repeat f_equal; ring.
Qed.

(** X11.  The residual of a [LinkPosTask] whose target has a position is
    zero exactly in the states in which the link is at that position. *)
Theorem link_pos_residual_vanishes_at_target (link : Body) (target : pyobj)
  (task : Task) (env : Env) (tp : vec3) :
  pos_task link target = Ok task ->
  target_position env target = Some tp ->
  pos_residual task env = Ok [0; 0; 0] <-> Body.p env link = tp.
Proof.
  intros Hinit Htp.
  rewrite (pos_residual_of_position link target task env tp Hinit Htp).
  rewrite <- sub3_zero. split; [apply ok_inj | intros ->; reflexivity].
Qed.

Lemma opposite_side_same (L : pose7) : opposite_side L L = false.
Proof.
  unfold opposite_side. apply NumFacts.ltb_ge.
  replace (quat_dist2 (pose_quat L) (pose_quat L)) with 0
    by (destruct L as [[a b c d] t]; unfold quat_dist2; cbn; ring).
  vm_compute. discriminate.
Qed.

Lemma pose_difference_same (L : pose7) :
  pose_difference L L = [0; 0; 0; 0; 0; 0; 0].
Proof.
  destruct L as [[a b c d] [x y z]]. unfold pose_difference. cbn.
  repeat f_equal; ring.
Qed.

Lemma skipn4_pose_difference (P L : pose7) :
  skipn 4 (pose_difference P L)
  = Np.of_vec3 (Np.sub3 (pose_trans P) (pose_trans L))
  /\ skipn 4 (pose_difference (negated_quaternion P) L)
     = Np.of_vec3 (Np.sub3 (pose_trans P) (pose_trans L)).
Proof. split; reflexivity. Qed.

(** X12.  The last three components of the residual of a [LinkPoseTask] are
    the residual of the [LinkPosTask] for the same link and the same body as
    target, or for the last three components of the same vector as target,
    whether or not the test on the quaternions fires. *)
Theorem pose_residual_ends_with_position_residual (link : Body) :
  (forall tb, exists tpose tpos,
      pose_task link (PyBody tb) = Ok tpose
      /\ pos_task link (PyBody tb) = Ok tpos
      /\ forall env, exists r,
           pos_residual tpose env = Ok r
           /\ length r = 7%nat
           /\ pos_residual tpos env = Ok (skipn 4 r))
  /\ (forall P, exists tpose tpos,
         pose_task link (PyArray (Np.of_pose P)) = Ok tpose
         /\ pos_task link (PyArray (Np.of_vec3 (pose_trans P))) = Ok tpos
         /\ forall env, exists r,
              pos_residual tpose env = Ok r
              /\ length r = 7%nat
              /\ pos_residual tpos env = Ok (skipn 4 r)).
Proof.
  split.
  - intros tb.
    destruct (pose_task_body gain weight exclude_dofs link tb)
      as (tpose & Hpose & Hrpose).
    destruct (pos_task_body gain weight exclude_dofs link tb)
      as (tpos & Hpos & Hrpos).
    exists tpose, tpos. repeat split; try assumption.
    intros env. rewrite Hrpose, Hrpos, residual_of_poses.
    destruct (skipn4_pose_difference (Body.pose env tb) (Body.pose env link))
      as [Hplain Hopp].
    rewrite !pose_trans_pose in Hplain, Hopp.
    eexists. split; [reflexivity |].
    destruct (opposite_side _ _); split; try reflexivity;
      rewrite ?Hplain, ?Hopp; reflexivity.
  - intros P.
    destruct (pose_task_array gain weight exclude_dofs link (Np.of_pose P))
      as (tpose & Hpose & _ & Hrpose).
    destruct (pos_task_array gain weight exclude_dofs link
                (Np.of_vec3 (pose_trans P)))
      as (tpos & Hpos & _ & Hrpos).
    exists tpose, tpos. repeat split; try assumption.
    intros env. rewrite Hrpose, Hrpos, residual_of_poses.
    destruct (skipn4_pose_difference P (Body.pose env link)) as [Hplain Hopp].
    rewrite !pose_trans_pose in Hplain, Hopp.
    eexists. split; [reflexivity |].
    destruct (opposite_side _ _); split; try reflexivity;
      rewrite ?Hplain, ?Hopp; reflexivity.
Qed.

(** X13.  A task whose target is its own link has a zero residual in every
    state: three zeros for a [LinkPosTask], seven for a [LinkPoseTask], for
    which the test on the quaternions does not fire. *)
Theorem residual_against_own_link_is_zero (link : Body) :
  exists tpose tpos,
    pose_task link (PyBody link) = Ok tpose
    /\ pos_task link (PyBody link) = Ok tpos
    /\ forall env,
         pos_residual tpose env = Ok [0; 0; 0; 0; 0; 0; 0]
         /\ pos_residual tpos env = Ok [0; 0; 0].
Proof.
  destruct (pose_task_body gain weight exclude_dofs link link)
    as (tpose & Hpose & Hrpose).
  destruct (pos_task_body gain weight exclude_dofs link link)
    as (tpos & Hpos & Hrpos).
  exists tpose, tpos. repeat split; try assumption.
  - rewrite Hrpose, residual_of_poses, opposite_side_same.
    now rewrite pose_difference_same.
  - rewrite Hrpos. destruct (Body.p env link) as [x y z]. cbn.
    repeat f_equal; ring.
Qed.

(** X14.  A target given as an array or a list of a single component [c] is
    broadcast without a warning: the residual of a [LinkPosTask] is the one
    for the target [(c, c, c)]. *)
Theorem scalar_target_is_broadcast (link : Body) (c : Qc) :
  exists task task3,
    pos_task link (PyArray [c]) = Ok task
    /\ pos_task link (PyList [c]) = Ok task
    /\ pos_task link (PyArray [c; c; c]) = Ok task3
    /\ forall env,
         pos_residual task env
         = Ok [c - Body.x env link; c - Body.y env link; c - Body.z env link]
         /\ pos_residual task env = pos_residual task3 env.
Proof.
  destruct (pos_task_array gain weight exclude_dofs link [c])
    as (task & Harr & Hlist & Hres).
  destruct (pos_task_array gain weight exclude_dofs link [c; c; c])
    as (task3 & Harr3 & _ & Hres3).
  exists task, task3. repeat split; try assumption.
  - rewrite Hres. reflexivity.
  - rewrite Hres, Hres3. reflexivity.
Qed.

Lemma ltb_iff (a b : Qc) (c : bool) : (c = true <-> a < b) -> c = (a <? b).
Proof.
  intros H. destruct (a <? b) eqn:Hab.
  - apply H. now apply NumFacts.ltb_lt.
  - destruct c; [| reflexivity].
    apply NumFacts.ltb_ge in Hab. exfalso.
    exact (Qcle_not_lt _ _ Hab (proj1 H eq_refl)).
Qed.

(** X15.  For a target and a link whose quaternions are unit quaternions of
    dot product [d], the orientation block of the residual has the squared
    norm [2 - 2 d] when [d] is at least one half and [2 + 2 d] when it is
    less: it is always below 3, and for [d] between 0 and one half the test
    returns the longer of the two equivalent differences. *)
Theorem orientation_residual_norm (link : Body) (P : pose7) (env : Env)
  (task : Task) :
  let L := Body.pose env link in
  let d := quat_dot (pose_quat P) (pose_quat L) in
  let two := 1 + 1 in
  unit_quat (pose_quat P) -> unit_quat (pose_quat L) ->
  pose_task link (PyArray (Np.of_pose P)) = Ok task ->
  exists r n,
    pos_residual task env = Ok r
    /\ np_dot (firstn 4 r) (firstn 4 r) = Ok n
    /\ n = (if d <? Num.dec 0.5 then two + two * d else two - two * d)
    /\ n < two + 1
    /\ (0 < d -> d < Num.dec 0.5 -> two - two * d < n).
Proof.
  cbv zeta. intros HP HL Hinit.
  destruct (pose_task_array gain weight exclude_dofs link (Np.of_pose P))
    as (task' & Htask & _ & Hres).
  unfold pose_task in Hinit. rewrite Htask in Hinit.
  apply ok_inj in Hinit. subst task'.
  rewrite Hres, residual_of_poses.
  destruct (opposite_side_unit P (Body.pose env link) HP HL) as [Hfire _].
  apply ltb_iff in Hfire. rewrite Hfire.
  destruct (quat_dot_negated P (pose_quat (Body.pose env link)))
    as [Hdot Hnorm].
  pose proof (quat_dist2_dot (pose_quat P) (pose_quat (Body.pose env link)))
    as Hplain.
  pose proof (quat_dist2_dot (pose_quat (negated_quaternion P))
                (pose_quat (Body.pose env link))) as Hopp.
  rewrite Hdot, Hnorm in Hopp. unfold unit_quat in HP, HL.
  rewrite HP, HL in Hplain, Hopp.
  revert Hplain Hopp.
  generalize (quat_dot (pose_quat P) (pose_quat (Body.pose env link))).
  intros d Hplain Hopp.
  assert (Hhalf : (this (Num.dec 0.5) == 1 # 2)%Q) by reflexivity.
  destruct (d <? Num.dec 0.5) eqn:Hd.
  - apply NumFacts.ltb_lt in Hd.
    exists (pose_difference (negated_quaternion P) (Body.pose env link)).
    exists (quat_dist2 (pose_quat (negated_quaternion P))
              (pose_quat (Body.pose env link))).
    split; [reflexivity |]. split; [reflexivity |].
    rewrite Hopp. split; [ring |]. clear - Hd Hhalf.
    split; [| intros H0 _]; revert Hd; try revert H0; qc_to_q;
      rewrite Hhalf; intros; lra.
  - apply NumFacts.ltb_ge in Hd.
    exists (pose_difference P (Body.pose env link)).
    exists (quat_dist2 (pose_quat P) (pose_quat (Body.pose env link))).
    split; [reflexivity |]. split; [reflexivity |].
    rewrite Hplain. split; [ring |]. clear - Hd Hhalf.
    split; [| intros _ H1]; revert Hd; try revert H1; qc_to_q;
      rewrite Hhalf; intros; lra.
Qed.

End ResidualFacts.

(** * Further properties of body.py: construction *)

Module ConstructionFacts.

Section Init.

Context {ext : External}.

Variables (cls : string) (kinbody : KinBody).

(** The first statement of [__init__], which names the kinbody. *)
Definition named (name : option string) (w : World) : World :=
  if String.eqb (Engine.GetName w kinbody) "" then
    match name with
    | None =>
        Engine.SetName kinbody (cls ++ BodyObject.str (body_count w))%string
          (Engine.with_count w (body_count w + 1))
    | Some name => Engine.SetName kinbody name w
    end
  else w.

Lemma init_names (pos rpy : option vec3) (pose : option pose7)
  (color : option string) (visible : bool) (transparency : option Qc)
  (name : option string) (w : World) :
  let w' := fst (BodyObject.init cls kinbody pos rpy pose color visible
                   transparency name w) in
  names w' = names (named name w)
  /\ body_count w' = body_count (named name w)
  /\ added w' = added w
  /\ boxes w' = boxes w.
Proof.
  cbv zeta. unfold BodyObject.init, named.
  destruct (String.eqb (Engine.GetName w kinbody) ""), name, pos, rpy, pose,
    color, visible, transparency; cbn; unfold BodyObject.set_color;
    try destruct (BodyObject.color_arrays _); repeat split.
Qed.

Lemma named_other (name : option string) (w : World) (k : KinBody) :
  k <> kinbody -> names (named name w) k = names w k.
Proof.
  intros Hk. unfold named.
  destruct (String.eqb _ _); [| reflexivity].
  destruct name; cbn; unfold Engine.update;
    destruct (Nat.eqb_spec k kinbody); congruence.
Qed.

(** X16.  [__init__] names the kinbody only when it has no name: a kinbody
    that has a name keeps it, whatever the argument [name], and the counter
    of anonymous bodies is unchanged; a kinbody without a name gets the
    argument [name] when there is one, and otherwise the name of the class
    followed by the counter, which is then incremented.  The names of the
    other kinbodies are unchanged. *)
Theorem init_names_the_unnamed_only (pos rpy : option vec3)
  (pose : option pose7) (color : option string) (visible : bool)
  (transparency : option Qc) (name : option string) (w : World) :
  let w' := fst (BodyObject.init cls kinbody pos rpy pose color visible
                   transparency name w) in
  (Engine.GetName w kinbody <> "" ->
   Engine.GetName w' kinbody = Engine.GetName w kinbody
   /\ body_count w' = body_count w)
  /\ (Engine.GetName w kinbody = "" ->
      match name with
      | Some given => Engine.GetName w' kinbody = given
                      /\ body_count w' = body_count w
      | None => Engine.GetName w' kinbody
                = (cls ++ BodyObject.str (body_count w))%string
                /\ body_count w' = (body_count w + 1)%nat
      end)
  /\ (forall k, k <> kinbody -> Engine.GetName w' k = Engine.GetName w k).
Proof.
  cbv zeta.
  destruct (init_names pos rpy pose color visible transparency name w)
    as (Hnames & Hcount & _).
  unfold Engine.GetName. rewrite Hnames, Hcount. split; [| split].
  - intros Hnamed. apply String.eqb_neq in Hnamed.
    unfold named, Engine.GetName. rewrite Hnamed. split; reflexivity.
  - intros Hempty. unfold named, Engine.GetName. rewrite Hempty.
    cbn [String.eqb]. destruct name; cbn; unfold Engine.update;
      rewrite Nat.eqb_refl; split; reflexivity.
  - intros k Hk. now apply named_other.
Qed.

End Init.

Section InitState.

Context {ext : External}.

Variables (cls : string) (kinbody : KinBody).

Let self : Body := {| rave := kinbody |}.

(** The three statements of [__init__] that move the body. *)
Definition placed (pos rpy : option vec3) (pose : option pose7) (env : Env)
  : Env :=
  let env := match pos with
             | Some pos => Body.set_pos self pos env
             | None => env
             end in
  let env := match rpy with
             | Some rpy => Body.set_rpy self rpy env
             | None => env
             end in
  match pose with
  | Some pose => Body.set_pose self pose env
  | None => env
  end.

Lemma init_transforms (pos rpy : option vec3) (pose : option pose7)
  (color : option string) (visible : bool) (transparency : option Qc)
  (name : option string) (w : World) :
  transforms (fst (BodyObject.init cls kinbody pos rpy pose color visible
                     transparency name w))
  = placed pos rpy pose (transforms w).
Proof.
  unfold BodyObject.init, placed.
  destruct (String.eqb (Engine.GetName w kinbody) ""), name, pos, rpy, pose,
    color, visible, transparency; cbn; unfold BodyObject.set_color;
    try destruct (BodyObject.color_arrays _); reflexivity.
Qed.

(** X18.  In [__init__] the argument [pose] supersedes [pos] and [rpy]: when
    it is given, the transform of the new body is the one of the pose,
    whatever the other two.  When it is not, the position is [pos] and the
    rotation block the one of [rpy], each one kept as it was when the
    argument is absent, and the last row is kept.  The transforms of the
    other bodies are unchanged. *)
Theorem pose_supersedes_pos_and_rpy (pos rpy : option vec3)
  (pose : option pose7) (color : option string) (visible : bool)
  (transparency : option Qc) (name : option string) (w : World) :
  let env := transforms w in
  let env' := transforms (fst (BodyObject.init cls kinbody pos rpy pose color
                                 visible transparency name w)) in
  match pose with
  | Some pose => Body.T env' self = matrixFromPose pose
  | None =>
      Body.p env' self = match pos with
                         | Some pos => pos
                         | None => Body.p env self
                         end
      /\ Body.R env' self
         = match rpy with
           | Some rpy => rotation_matrix_from_rpy (v0 rpy) (v1 rpy) (v2 rpy)
           | None => Body.R env self
           end
      /\ Np.row3 (Body.T env' self) = Np.row3 (Body.T env self)
  end
  /\ forall other, rave other <> kinbody ->
                   Body.T env' other = Body.T env other.
Proof.
  cbv zeta. rewrite init_transforms. unfold placed. split.
  - destruct pose as [pose |].
    + unfold Body.set_pose. apply T_set_transform.
    + destruct pos as [pos |], rpy as [rpy |];
        rewrite ?R_set_rpy, ?p_set_rpy, ?p_set_pos, ?R_set_pos;
        repeat split;
        unfold Body.set_rpy, Body.set_pos; rewrite ?T_set_transform;
        reflexivity.
  - intros other Hother.
    destruct pose, pos, rpy;
      unfold Body.set_pose, Body.set_rpy, Body.set_pos;
      rewrite ?T_set_transform_other by exact Hother; reflexivity.
Qed.

(** X19.  After [__init__] the attribute [is_visible] is the argument
    [visible].  The engine is told to hide the kinbody when [visible] is
    false and is told nothing when it is true, so that a kinbody that was
    hidden stays hidden while [is_visible] is true; [set_visible] sets the
    attribute and the engine to the same value. *)
Theorem init_visibility (pos rpy : option vec3) (pose : option pose7)
  (color : option string) (visible : bool) (transparency : option Qc)
  (name : option string) (w : World) :
  let (w', obj) := BodyObject.init cls kinbody pos rpy pose color visible
                     transparency name w in
  is_visible obj = visible
  /\ visibility w' kinbody = (if visible then visibility w kinbody else false)
  /\ (forall k, k <> kinbody -> visibility w' k = visibility w k)
  /\ (forall v,
         let (w'', obj') := BodyObject.set_visible obj v w' in
         is_visible obj' = v /\ visibility w'' kinbody = v).
Proof.
  unfold BodyObject.init.
  destruct (String.eqb (Engine.GetName w kinbody) ""), name, pos, rpy, pose,
    color, visible, transparency; cbn; unfold BodyObject.set_color;
    try destruct (BodyObject.color_arrays _); cbn;
    unfold Engine.update; rewrite ?Nat.eqb_refl;
    (split; [reflexivity |]); (split; [reflexivity |]);
    (split; [| intros flag; split; reflexivity]);
    intros other Hother; destruct (Nat.eqb_spec other kinbody); congruence.
Qed.

End InitState.

Section Colours.

Context {ext : External}.

Definition grey : vec3 := V3 (Num.dec 0.2) (Num.dec 0.2) (Num.dec 0.2).

Definition channels (c : vec3 * vec3) : list Qc :=
  [v0 (fst c); v1 (fst c); v2 (fst c); v0 (snd c); v1 (snd c); v2 (snd c)].

Ltac colour_cases color :=
  unfold BodyObject.color_arrays, BodyObject.mem, BodyObject.index;
  rewrite ?(String.eqb_sym "r" color), ?(String.eqb_sym "g" color),
    ?(String.eqb_sym "b" color), ?(String.eqb_sym "c" color),
    ?(String.eqb_sym "m" color), ?(String.eqb_sym "y" color);
  destruct (String.eqb color "w"), (String.eqb color "r"),
    (String.eqb color "g"), (String.eqb color "b"), (String.eqb color "c"),
    (String.eqb color "m"), (String.eqb color "y").

(** X20.  Whatever the colour code, [set_color] computes colours whose
    channels lie between 0.2 and 1, with no diffuse channel below
    the ambient one; a code other than [w], [r], [g], [b], [c], [m] and [y]
    gives the dark grey [(0.2, 0.2, 0.2)] twice, and raises nothing; and the
    colours of [c], [m] and [y] are complementary to those of [r], [g] and
    [b]: the ambient colours of a pair add up to [(0.6, 0.6, 0.6)] and the
    diffuse ones to [(0.8, 0.8, 0.8)]. *)
Theorem colour_codes (color : string) :
  Forall (fun c => Num.dec 0.2 <= c /\ c <= 1)
         (channels (BodyObject.color_arrays color))
  /\ (let (a, d) := BodyObject.color_arrays color in
      v0 a <= v0 d /\ v1 a <= v1 d /\ v2 a <= v2 d)
  /\ (BodyObject.mem color ["w"; "r"; "g"; "b"; "c"; "m"; "y"] = false ->
      BodyObject.color_arrays color = (grey, grey))
  /\ Forall (fun pair =>
               let (a, d) := BodyObject.color_arrays (fst pair) in
               let (a', d') := BodyObject.color_arrays (snd pair) in
               Np.add3 a a'
               = V3 (Num.dec 0.6) (Num.dec 0.6) (Num.dec 0.6)
               /\ Np.add3 d d'
                  = V3 (Num.dec 0.8) (Num.dec 0.8) (Num.dec 0.8))
            [("r", "c"); ("g", "m"); ("b", "y")].
Proof.
  split; [| split; [| split]].
  - colour_cases color; unfold channels; cbn;
      repeat constructor; vm_compute; discriminate.
  - colour_cases color; cbn; repeat split; vm_compute; discriminate.
  - colour_cases color; cbn; intros Hmem; try discriminate Hmem; reflexivity.
  - repeat constructor; qc_eval.
Qed.

Definition coloured (a d : vec3) (g : Geometry) : Geometry :=
  {| ambient_color := a; diffuse_color := d; transparency := transparency g |}.

(** X21.  [set_color] gives every geometry of every link of the body the
    two colours of the code and keeps its transparency; [set_transparency]
    gives every geometry the transparency and keeps its colours; both keep
    the links and the geometries in number and in order, commute with each
    other, and leave the other kinbodies, the names, the visibility and the
    transforms as they were. *)
Theorem set_color_and_set_transparency (self : Body) (color : string)
  (t : Qc) (w : World) :
  let k := rave self in
  let (a, d) := BodyObject.color_arrays color in
  let wc := BodyObject.set_color self color w in
  let wt := BodyObject.set_transparency self t w in
  geometries wc k = map (map (coloured a d)) (geometries w k)
  /\ geometries wt k = map (map (Engine.SetTransparency t)) (geometries w k)
  /\ (forall k', geometries (BodyObject.set_transparency self t wc) k'
                 = geometries (BodyObject.set_color self color wt) k')
  /\ (forall k', k' <> k ->
                 geometries wc k' = geometries w k'
                 /\ geometries wt k' = geometries w k')
  /\ (names wc, visibility wc, transforms wc)
     = (names w, visibility w, transforms w)
  /\ (names wt, visibility wt, transforms wt)
     = (names w, visibility w, transforms w).
Proof.
  cbv zeta. unfold BodyObject.set_color, BodyObject.set_transparency.
  destruct (BodyObject.color_arrays color) as [a d].
  unfold Engine.for_each_geometry. cbn [geometries names visibility transforms].
  unfold Engine.update. rewrite !Nat.eqb_refl.
  split; [reflexivity |]. split; [reflexivity |]. split; [| split].
  - intros k'. destruct (Nat.eqb_spec k' (rave self)); [| reflexivity].
    rewrite !map_map. apply map_ext. intros l. rewrite !map_map. reflexivity.
  - intros k' Hk'. destruct (Nat.eqb_spec k' (rave self)); [congruence |].
    split; reflexivity.
  - split; reflexivity.
Qed.

End Colours.

Section Names.

Context {ext : External}.

Lemma append_inj (p s t : string) : (p ++ s)%string = (p ++ t)%string -> s = t.
Proof.
  induction p as [| c p IH]; cbn; [tauto |].
  intros H. apply IH.
  exact (f_equal (fun u => match u with
                           | String _ u' => u'
                           | EmptyString => EmptyString
                           end) H).
Qed.

Lemma str_inj (n m : nat) : BodyObject.str n = BodyObject.str m -> n = m.
Proof.
  unfold BodyObject.str. intros H.
  apply DecimalNat.Unsigned.to_uint_inj.
  apply (f_equal NilEmpty.uint_of_string) in H.
  rewrite !NilEmpty.usu in H. now injection H.
Qed.

(** X17.  Two bodies of the same class constructed one after the other
    around two kinbodies without a name, and without a [name] argument, get
    two different names, and the counter of anonymous bodies grows by two. *)
Theorem anonymous_names_are_distinct (cls : string) (k1 k2 : KinBody)
  (pos1 rpy1 pos2 rpy2 : option vec3) (pose1 pose2 : option pose7)
  (color1 color2 : option string) (visible1 visible2 : bool)
  (transparency1 transparency2 : option Qc) (w : World) :
  k1 <> k2 ->
  Engine.GetName w k1 = "" -> Engine.GetName w k2 = "" ->
  let w1 := fst (BodyObject.init cls k1 pos1 rpy1 pose1 color1 visible1
                   transparency1 None w) in
  let w2 := fst (BodyObject.init cls k2 pos2 rpy2 pose2 color2 visible2
                   transparency2 None w1) in
  Engine.GetName w2 k1 <> Engine.GetName w2 k2
  /\ Engine.GetName w2 k1 = (cls ++ BodyObject.str (body_count w))%string
  /\ Engine.GetName w2 k2 = (cls ++ BodyObject.str (body_count w + 1))%string
  /\ body_count w2 = (body_count w + 2)%nat.
Proof.
  intros Hne H1 H2. cbv zeta.
  set (w1 := fst (BodyObject.init cls k1 pos1 rpy1 pose1 color1 visible1
                    transparency1 None w)).
  set (w2 := fst (BodyObject.init cls k2 pos2 rpy2 pose2 color2 visible2
                    transparency2 None w1)).
  destruct (init_names cls k1 pos1 rpy1 pose1 color1 visible1 transparency1
              None w) as (Hn1 & Hc1 & _).
  destruct (init_names cls k2 pos2 rpy2 pose2 color2 visible2 transparency2
              None w1) as (Hn2 & Hc2 & _).
  fold w1 in Hn1, Hc1. fold w2 in Hn2, Hc2.
  assert (Hw1 : names w1 k1 = (cls ++ BodyObject.str (body_count w))%string
                /\ names w1 k2 = ""
                /\ body_count w1 = (body_count w + 1)%nat).
  { rewrite Hn1, Hc1. unfold named, Engine.GetName in *. rewrite H1.
    cbn. unfold Engine.update. rewrite Nat.eqb_refl.
    destruct (Nat.eqb_spec k2 k1); [congruence | auto]. }
  destruct Hw1 as (Hk1 & Hk2 & Hcount1).
  assert (Hw2 : names w2 k1 = names w1 k1
                /\ names w2 k2
                   = (cls ++ BodyObject.str (body_count w1))%string
                /\ body_count w2 = (body_count w1 + 1)%nat).
  { rewrite Hn2, Hc2. unfold named, Engine.GetName. rewrite Hk2.
    cbn. unfold Engine.update. rewrite Nat.eqb_refl.
    destruct (Nat.eqb_spec k1 k2); [congruence | auto]. }
  destruct Hw2 as (Hk1' & Hk2' & Hcount2).
  unfold Engine.GetName. rewrite Hk1', Hk2', Hk1, Hcount2, Hcount1.
  repeat split; try lia.
  intros Heq. apply append_inj, str_inj in Heq. lia.
Qed.

End Names.

Section PointMasses.

Context {ext : External}.

Variables (box : KinBody) (fresh : Geometry).

Definition point_mass_size (mass : Qc) : Qc :=
  Shapes.max (Num.dec 5e-3) (Num.dec 6e-4 * mass).

Lemma point_mass_object (pos : option vec3) (mass : Qc)
  (color : option string) (visible : bool) (transparency : option Qc)
  (name : option string) (w : World) :
  snd (Shapes.PointMass_init box fresh pos mass color visible transparency
         name w)
  = {| mass_box :=
         {| box_instance :=
              {| wrapped := {| rave := box |}; is_visible := visible |};
            X := point_mass_size mass;
            Y := point_mass_size mass;
            Z := point_mass_size mass |};
       mass_pd := Np.zeros3;
       mass := mass |}.
Proof. reflexivity. Qed.

Lemma size_thresholds :
  (this (Num.dec 5e-3) == 5 # 1000)%Q /\ (this (Num.dec 6e-4) == 6 # 10000)%Q.
Proof. split; reflexivity. Qed.

(** X22.  A point-mass is a cube: its three half-lengths are equal.  Their
    common value is never below 5 mm: it is 5 mm for every mass up to 25/3
    kg, a negative one included, and 0.6 mm per kg above, so that the size is
    proportional to the mass from 25/3 kg on only.  The velocity of a new
    point-mass is zero. *)
Theorem point_mass_is_a_cube_of_bounded_size (pos : option vec3) (mass : Qc)
  (color : option string) (visible : bool) (transparency : option Qc)
  (name : option string) (w : World) :
  let self := snd (Shapes.PointMass_init box fresh pos mass color visible
                     transparency name w) in
  let size := X (mass_box self) in
  let threshold := Q2Qc (25 # 3) in
  (Y (mass_box self) = size /\ Z (mass_box self) = size)
  /\ Num.dec 5e-3 <= size
  /\ (mass <= threshold -> size = Num.dec 5e-3)
  /\ (threshold <= mass -> size = Num.dec 6e-4 * mass)
  /\ Point.pd (Shapes.as_point self) = V3 0 0 0.
Proof.
  cbv zeta. rewrite point_mass_object. cbn [mass_box X Y Z].
  destruct size_thresholds as [H5 H6].
  assert (Ht : (this (Q2Qc (25 # 3)) == 25 # 3)%Q) by reflexivity.
  unfold point_mass_size, Shapes.max.
  split; [split; reflexivity |].
  destruct (Num.dec 5e-3 <? Num.dec 6e-4 * mass) eqn:Hcmp.
  - apply NumFacts.ltb_lt in Hcmp. repeat split.
    + revert Hcmp. qc_to_q. rewrite H5. intros; lra.
    + intros Hle. exfalso. revert Hcmp Hle. qc_to_q.
      rewrite H5, H6, Ht. intros; lra.
  - apply NumFacts.ltb_ge in Hcmp. repeat split.
    + qc_to_q. lra.
    + intros Hge. apply Qc_is_canon. revert Hcmp Hge. qc_to_q.
      rewrite H5, H6, Ht. intros; lra.
Qed.

(** X23.  Constructing a point-mass around a new kinbody, one without a
    name: the kinbody is initialised from one box centred at its origin,
    with the three half-lengths of the point-mass, and is added to the
    environment; the body is at [pos], or at the origin when [pos] is
    [None], with the rotation block the kinbody had; its name is the
    argument [name], or [PointMass] followed by the counter of anonymous
    bodies; its one geometry has the colours of the colour code and the
    transparency, each one left as the engine made it when the argument is
    [None]. *)
Theorem point_mass_construction (pos : option vec3) (mass : Qc)
  (color : option string) (visible : bool) (transparency : option Qc)
  (name : option string) (w : World) :
  Engine.GetName w box = "" ->
  let (w', self) := Shapes.PointMass_init box fresh pos mass color visible
                      transparency name w in
  let body := wrapped (box_instance (mass_box self)) in
  let size := point_mass_size mass in
  let painted := match color with
                 | Some color =>
                     coloured (fst (BodyObject.color_arrays color))
                              (snd (BodyObject.color_arrays color)) fresh
                 | None => fresh
                 end in
  rave body = box
  /\ boxes w' box
     = [{| aabb_pos := V3 0 0 0; aabb_extents := V3 size size size |}]
  /\ added w' box = true
  /\ Body.p (transforms w') body = match pos with
                                   | Some pos => pos
                                   | None => V3 0 0 0
                                   end
  /\ Body.R (transforms w') body = Body.R (transforms w) body
  /\ Engine.GetName w' box
     = match name with
       | Some name => name
       | None => ("PointMass" ++ BodyObject.str (body_count w))%string
       end
  /\ geometries w' box
     = [[match transparency with
         | Some t => Engine.SetTransparency t painted
         | None => painted
         end]].
Proof.
  intros Hname.
  unfold Shapes.PointMass_init, Shapes.Point_init, Shapes.Cube_init,
    Shapes.Box_init, BodyObject.init.
  unfold Engine.GetName in *. cbn [names Engine.InitFromBoxes].
  rewrite Hname. cbn [String.eqb].
  destruct name, pos, color, visible, transparency;
    cbn; unfold BodyObject.set_color;
    try destruct (BodyObject.color_arrays _);
    cbn; unfold Engine.update; rewrite ?Nat.eqb_refl;
    unfold BodyObject.on_transforms;
    cbn [transforms Engine.with_transforms fst snd];
    rewrite ?p_set_pos, ?R_set_pos;
    repeat split; reflexivity.
Qed.

End PointMasses.

End ConstructionFacts.

(** * The further properties, on the reference implementation *)

Module ExtraWitnesses.

Import Reference.

(** A world in which no kinbody has a name or a geometry yet. *)
Definition world0 : World :=
  {| transforms := env0;
     names := fun _ => "";
     visibility := fun _ => true;
     geometries := fun _ => [];
     boxes := fun _ => [];
     added := fun _ => false;
     body_count := 0 |}.

Definition fresh0 : Geometry :=
  {| ambient_color := V3 1 1 1; diffuse_color := V3 1 1 1; transparency := 0 |}.

Lemma other_bodies_are_untouched_witness :
  Body.T (Body.apply_twist link0 (V3 1 0 0) (V3 0 0 1) 1 env0) body1
  = Body.T env0 body1.
Proof.
  refine (proj1 (other_bodies_are_untouched link0 body1 env0 0 1 (V3 1 0 0)
                   (V3 0 0 1) Np.eye3 (Quat 1 0 0 0)
                   (Pose (Quat 1 0 0 0) (V3 0 0 0)) Np.eye4 _ _ _)).
  - discriminate.
  - cbn [In]. do 12 right. left. reflexivity.
Defined.

Lemma angle_mutators_compose_to_set_rpy_witness :
  same_env
    (Body.set_yaw link0 (Num.dec 0.3)
       (Body.set_pitch link0 (Num.dec 0.2)
          (Body.set_roll link0 (Num.dec 0.1) env0)))
    (Body.set_rpy link0 (V3 (Num.dec 0.1) (Num.dec 0.2) (Num.dec 0.3)) env0).
Proof.
  apply (angle_mutators_compose_to_set_rpy
           (fun roll pitch yaw _ =>
              ReferenceFacts.reference_angles_read_back roll pitch yaw));
    unfold within_one; split; vm_compute; discriminate.
Defined.

Lemma turn_y_is_rigid :
  is_rigid (Body.T (Body.set_transform link0 turn_y env0) link0).
Proof.
  rewrite T_set_transform. unfold is_rigid, is_rotation.
  repeat split; qc_eval.
Qed.

Lemma basis_is_right_handed_orthonormal_witness :
  let env := Body.set_transform link0 turn_y env0 in
  Vec.cross3 (Body.t env link0) (Body.b env link0) = Body.n env link0
  /\ Vec.dot3 (Body.t env link0) (Body.n env link0) = 0.
Proof.
  cbv zeta.
  pose proof (FrameFacts.basis_is_right_handed_orthonormal
                (Body.set_transform link0 turn_y env0) link0 turn_y_is_rigid)
    as Hframe.
  cbv zeta in Hframe.
  destruct Hframe as (_ & (_ & Hortho & _) & (Hcross & _)).
  split; assumption.
Defined.

Lemma twist_scales_the_determinant_witness :
  Np.det3 (Body.R (Body.apply_twist link0 (V3 0 0 0) (V3 0 0 two) 1 env0) link0)
  = two + two + 1.
Proof.
  pose proof (FrameFacts.twist_scales_the_determinant
                (fun w => eq_refl) link0 (V3 0 0 0) (V3 0 0 two) 1 env0)
    as Hdet.
  cbv zeta in Hdet. destruct Hdet as (Hdet & _).
  rewrite Hdet. qc_eval.
Defined.

Lemma link_pos_residual_vanishes_at_target_witness :
  exists task,
    LinkPosTask.init link0 (PyArray [1; 0; 0]) None None None = Ok task
    /\ pos_residual task (Body.set_pos link0 (V3 1 0 0) env0) = Ok [0; 0; 0].
Proof.
  destruct (pos_task_array None None None link0 [1; 0; 0])
    as (task & Htask & _).
  exists task. split; [exact Htask |].
  apply (link_pos_residual_vanishes_at_target None None None link0
           (PyArray [1; 0; 0]) task
           (Body.set_pos link0 (V3 1 0 0) env0) (V3 1 0 0) Htask eq_refl).
  apply p_set_pos.
Defined.

(** A target a third of the way round from the link: the dot product of the
    unit quaternions is [5/13], and the test returns the difference of
    squared norm [36/13] in place of the one of squared norm [16/13]. *)
Lemma orientation_residual_norm_witness :
  let P := Pose (Quat (Q2Qc (5 # 13)) (Q2Qc (12 # 13)) 0 0) (V3 0 0 0) in
  exists task r,
    LinkPoseTask.init link0 (PyArray (Np.of_pose P)) None None None = Ok task
    /\ pos_residual task env0 = Ok r
    /\ np_dot (firstn 4 r) (firstn 4 r) = Ok (Q2Qc (36 # 13)).
Proof.
  cbv zeta.
  destruct (pose_task_array None None None link0
              (Np.of_pose
                 (Pose (Quat (Q2Qc (5 # 13)) (Q2Qc (12 # 13)) 0 0)
                       (V3 0 0 0))))
    as (task & Htask & _).
  exists task.
  pose proof (orientation_residual_norm None None None link0
                (Pose (Quat (Q2Qc (5 # 13)) (Q2Qc (12 # 13)) 0 0) (V3 0 0 0))
                env0 task) as Hnorm.
  cbv zeta in Hnorm.
  assert (HP : unit_quat (Quat (Q2Qc (5 # 13)) (Q2Qc (12 # 13)) 0 0))
    by (unfold unit_quat; qc_eval).
  assert (HL : unit_quat (pose_quat (Body.pose env0 link0)))
    by (unfold unit_quat; qc_eval).
  destruct (Hnorm HP HL Htask) as (r & n & Hr & Hn & Hval & _).
  exists r. split; [exact Htask |]. split; [exact Hr |].
  rewrite Hn, Hval. f_equal; qc_eval.
Defined.

Lemma anonymous_names_are_distinct_witness :
  let w1 := fst (BodyObject.init "Box" 0%nat None None None (Some "r") true
                   None None world0) in
  let w2 := fst (BodyObject.init "Box" 1%nat None None None None true None
                   None w1) in
  Engine.GetName w2 0%nat = "Box0" /\ Engine.GetName w2 1%nat = "Box1"
  /\ Engine.GetName w2 0%nat <> Engine.GetName w2 1%nat.
Proof.
  cbv zeta.
  pose proof (ConstructionFacts.anonymous_names_are_distinct "Box" 0%nat 1%nat
                None None None None None None (Some "r") None true true None
                None world0) as Hnames.
  cbv zeta in Hnames.
  assert (Hne : 0%nat <> 1%nat) by discriminate.
  destruct (Hnames Hne eq_refl eq_refl) as (Hdiff & H0 & H1 & _).
  split; [exact H0 | split; [exact H1 | exact Hdiff]].
Defined.

Lemma point_mass_construction_witness :
  let (w, self) := Shapes.PointMass_init 0%nat fresh0 None (Q2Qc 10)
                     (Some "r") true None None world0 in
  Engine.GetName w 0%nat = "PointMass0"
  /\ X (mass_box self) = Num.dec 6e-3
  /\ Body.p (transforms w) link0 = V3 0 0 0
  /\ added w 0%nat = true.
Proof.
  pose proof (ConstructionFacts.point_mass_construction 0%nat fresh0 None
                (Q2Qc 10) (Some "r") true None None world0 eq_refl) as Hmake.
  destruct (Shapes.PointMass_init 0%nat fresh0 None (Q2Qc 10) (Some "r") true
              None None world0) as [w self] eqn:Hinit.
  cbv zeta in Hmake.
  destruct Hmake as (Hbody & _ & Hadded & Hpos & _ & Hname & _).
  assert (Hself : self = snd (Shapes.PointMass_init 0%nat fresh0 None
                                (Q2Qc 10) (Some "r") true None None world0))
    by (rewrite Hinit; reflexivity).
  split; [exact Hname |]. split; [rewrite Hself; qc_eval |].
  split; [rewrite Hself in Hpos; exact Hpos | exact Hadded].
Defined.

End ExtraWitnesses.
